(** * Recipe nutrition pipeline of the Nutrition Label Generator front end

    A shallow embedding of the calculation code of the React front end:

    - [combineIngredients] (frontend/src/api/client.js),
    - the [RecipeBuilder] component (frontend/src/components/RecipeReview.jsx,
      second module of the file): [convertIngredient], the ingredient
      handlers, the [combinedNutrition] memo and the confidence banner,
    - the initial yield weight of [RecipeReview],
    - [handleSubmit] of [ServingSizeForm].

    Numbers.  JavaScript numbers are modelled as exact rationals ([Qc],
    canonical fractions with Leibniz equality): all arithmetic of the
    modelled code is [+], [*] and [/] on finite values, and the properties
    stated of it are properties of that exact arithmetic.  A nullable number
    ([weight_g: number | null]) is an [option Qc]; where the code does
    arithmetic on it, JavaScript's [ToNumber] applies ([null] becomes [0]).
    [combineIngredients] is embedded a second time on IEEE 754 binary64
    (module [Double], on the primitive floats), which shows where rounding
    makes the doubles depart from the exact sums.

    Strings.  A [string] holds the UTF-8 encoding of the JavaScript string;
    [trim] and the replacement in the download name treat the characters
    outside ASCII by their bytes. *)

From Stdlib Require Import Ascii String QArith Qcanon PrimFloat.
From stdpp Require Import gmap strings list fin_maps numbers.

Local Open Scope Qc_scope.

(** ** Numbers *)

Module Num.

(** Integer literals of the source. *)
Definition lit (z : Z) : Qc := Qc_of_Z z.

(** [ToNumber] on a nullable number: [null] is coerced to [0]. *)
Definition toNumber (v : option Qc) : Qc := default 0 v.

(** [v || 0] on a nullable number: [null] and [0] are falsy. *)
Definition orZero (v : option Qc) : Qc := default 0 v.

(** [v > 0]. *)
Definition gtb0 (v : Qc) : bool := bool_decide (0 < v).

(** [v <= 0]. *)
Definition leb0 (v : Qc) : bool := bool_decide (v ≤ 0).

End Num.

Notation "'#' z" := (Num.lit z) (at level 1, format "'#' z") : Qc_scope.

(** ** Data model *)

(** Confidence tiers, the strings ['high'], ['medium'] and ['low']. *)
Inductive Confidence : Set := high | medium | low.

#[global] Instance Confidence_eq_dec : EqDecision Confidence.
Proof. solve_decision. Defined.

(** A nutrition object: nutrient key to amount per 100 g.  A key that is
    missing and a key that holds [null] are the same to the code, which tests
    [ing.nutrition[key] != null]; both are a failed lookup here. *)
Abbreviation Nutrition := (gmap string Qc).

(** An ingredient row of [RecipeBuilder] (the object built by
    [handleAddIngredient]).  [ing_id] and [ing_unit] are the fields [id] and
    [unit] of the source. *)
Record Ingredient : Type := mkIngredient {
  ing_id : Z;
  description : string;
  quantity : Qc;
  ing_unit : string;
  weight_g : option Qc;
  confidence : option Confidence;
  conversionNote : option string;
  nutrition : Nutrition;
}.

(** ** client.js: [combineIngredients] *)

(** The object literal [combined], in the order of its properties. *)
Definition combined_literal : list (string * Qc) :=
  [ ("calories", 0); ("total_fat_g", 0); ("saturated_fat_g", 0);
    ("trans_fat_g", 0); ("cholesterol_mg", 0); ("sodium_mg", 0);
    ("total_carbohydrate_g", 0); ("dietary_fiber_g", 0);
    ("total_sugars_g", 0); ("added_sugars_g", 0); ("protein_g", 0);
    ("vitamin_d_mcg", 0); ("calcium_mg", 0); ("iron_mg", 0);
    ("potassium_mg", 0) ]%string.

Definition combined_init : Nutrition := list_to_map combined_literal.

(** [Object.keys(combined)]: the loops never add a property, so it is the
    key list of the literal throughout. *)
Definition combined_keys : list string := combined_literal.*1.

(** [ingredients.reduce((sum, ing) => sum + ing.weight_g, 0)] *)
Definition sumWeights (ingredients : list Ingredient) : Qc :=
  foldl (λ sum ing, sum + Num.toNumber (weight_g ing)) 0 ingredients.

(** Reading [combined[key]] for a key of [Object.keys(combined)]; the
    property always exists there. *)
Definition get (combined : Nutrition) (key : string) : Qc :=
  default 0 (combined !! key).

(** Body of [for (const ing of ingredients)]. *)
Definition addWeighted (combined : Nutrition) (ing : Ingredient) : Nutrition :=
  let factor := Num.toNumber (weight_g ing) / #100 in
  foldl (λ combined key,
           match nutrition ing !! key with
           | Some v => <[key := get combined key + v * factor]> combined
           | None => combined
           end)
        combined combined_keys.

(** The second loop: [combined[key] = combined[key] * per100gFactor]. *)
Definition rescale (per100gFactor : Qc) (combined : Nutrition) : Nutrition :=
  foldl (λ combined key, <[key := get combined key * per100gFactor]> combined)
        combined combined_keys.

Definition combineIngredients (ingredients : list Ingredient)
  : option Nutrition :=
  let totalWeight := sumWeights ingredients in
  if decide (totalWeight = 0) then None
  else
    let combined := foldl addWeighted combined_init ingredients in
    let per100gFactor := #100 / totalWeight in
    Some (rescale per100gFactor combined).

(** ** Specification-side sums

    The quantities the aggregation formula is written with: the total mass
    and, per key, the sum of the absolute nutrient amounts.  An ingredient
    that does not carry the key adds [0]. *)

Definition grams (ing : Ingredient) : Qc := Num.toNumber (weight_g ing).

Definition profile (ing : Ingredient) (k : string) : Qc :=
  default 0 (nutrition ing !! k).

Definition total_mass (ingredients : list Ingredient) : Qc :=
  foldr (λ ing acc, grams ing + acc) 0 ingredients.

Definition weighted_sum (k : string) (ingredients : list Ingredient) : Qc :=
  foldr (λ ing acc, grams ing / #100 * profile ing k + acc) 0 ingredients.

(** Whether some ingredient supplies a value for [k]. *)
Definition supplied (k : string) (ingredients : list Ingredient) : bool :=
  existsb (λ ing, bool_decide (is_Some (nutrition ing !! k))) ingredients.

(** ** Effects

    The components keep React state and talk to the backend.  A handler is a
    computation over an explicit state that either completes normally or
    throws; [try]/[catch]/[finally] are the combinators below.  An [await]
    is sequencing: a handler as a whole is its run to completion, without
    other handlers interleaved at its suspension point.  For the handlers of
    [RecipeBuilder] that wait for a conversion, the part before the [await]
    and the part after it are given as computations of their own further
    down, so that other events can be placed between them. *)

Inductive Completion (A : Type) : Type :=
  | Normal (a : A)
  | Throw (message : string).
Arguments Normal {A} a.
Arguments Throw {A} message.

Definition Eff (S A : Type) : Type := S → Completion A * S.

Definition ret {S A} (a : A) : Eff S A := λ s, (Normal a, s).

Definition throw {S A} (message : string) : Eff S A := λ s, (Throw message, s).

Definition bind {S A B} (m : Eff S A) (f : A → Eff S B) : Eff S B :=
  λ s, match m s with
       | (Normal a, s') => f a s'
       | (Throw e, s') => (Throw e, s')
       end.

(** [try { body } catch (err) { handler }] *)
Definition try_catch {S A} (body : Eff S A) (handler : string → Eff S A)
  : Eff S A :=
  λ s, match body s with
       | (Normal a, s') => (Normal a, s')
       | (Throw e, s') => handler e s'
       end.

(** [try { body } finally { cleanup }]: the cleanup runs on both exits and
    the completion of the body stands unless the cleanup throws. *)
Definition try_finally {S A} (body : Eff S A) (cleanup : Eff S ())
  : Eff S A :=
  λ s, match body s with
       | (c, s') =>
           match cleanup s' with
           | (Normal _, s'') => (c, s'')
           | (Throw e, s'') => (Throw e, s'')
           end
       end.

Definition gets {S A} (f : S → A) : Eff S A := λ s, (Normal (f s), s).

Definition modify {S} (f : S → S) : Eff S () := λ s, (Normal (), f s).

(** Sequencing is written [x ← m; k] and [m;; k]. *)
#[global] Instance Eff_ret {S} : MRet (Eff S) := λ A, ret.
#[global] Instance Eff_bind {S} : MBind (Eff S) := λ A B f m, bind m f.

(** [value || fallback] on a string: the empty string is falsy. *)
Definition or_string (value : option string) (fallback : string) : string :=
  match value with
  | Some v => if decide (v = ""%string) then fallback else v
  | None => fallback
  end.

(** ** client.js: [convertIngredientToGrams]

    The backend is a function from the request body to what the [fetch] and
    [response.json()] promises settle to. *)

Record ConvertRequest : Type := mkConvertRequest {
  req_ingredient : string;
  req_quantity : Qc;
  req_unit : string;
}.

(** [data.result] of a successful conversion, with the types of the backend
    contract: [grams] is a number, [confidence] one of the three tiers and
    [note] a string or [null]. *)
Record ConversionResult : Type := mkConversionResult {
  res_grams : Qc;
  res_confidence : Confidence;
  res_note : option string;
}.

Inductive ConvertReply : Type :=
  | Rejected (message : string)
      (* [fetch] or [response.json()] rejects *)
  | ConvertFailure (error : option string)
      (* [{ success: false, error }] *)
  | ConvertSuccess (result : ConversionResult).
      (* [{ success: true, result }] *)

Abbreviation ConvertBackend := (ConvertRequest → ConvertReply).

(** State of [RecipeBuilder]: the [ingredients] and [convertingIds] state
    variables, and [sent], the requests posted to [/recipe/convert] so far. *)
Record Builder : Type := mkBuilder {
  ingredients : list Ingredient;
  convertingIds : gset Z;
  sent : list ConvertRequest;
}.

Definition setIngredients (f : list Ingredient → list Ingredient)
  : Eff Builder () :=
  modify (λ s, mkBuilder (f (ingredients s)) (convertingIds s) (sent s)).

Definition setConvertingIds (f : gset Z → gset Z) : Eff Builder () :=
  modify (λ s, mkBuilder (ingredients s) (f (convertingIds s)) (sent s)).

Definition post (request : ConvertRequest) : Eff Builder () :=
  modify (λ s, mkBuilder (ingredients s) (convertingIds s) (sent s ++ [request])).

Definition convertIngredientToGrams (backend : ConvertBackend)
    (ingredient : string) (quantity : Qc) (unit : string)
  : Eff Builder ConversionResult :=
  let request := mkConvertRequest ingredient quantity unit in
  post request;;
  match backend request with
  | Rejected message => throw message
  | ConvertFailure error => throw (or_string error "Conversion failed")
  | ConvertSuccess result => ret result
  end.

(** ** RecipeBuilder *)

(** What [convertIngredient] resolves to: [{ grams, confidence, note }]. *)
Record Conversion : Type := mkConversion {
  conv_grams : Qc;
  conv_confidence : Confidence;
  conv_note : option string;
}.

(** [{ ...ing, quantity, unit, weight_g, confidence, conversionNote }]: a copy
    of [ing] with the editable fields replaced. *)
Definition spread (ing : Ingredient) (quantity : Qc) (unit : string)
    (weight_g : option Qc) (confidence : option Confidence)
    (conversionNote : option string) : Ingredient :=
  mkIngredient (ing_id ing) (description ing) quantity unit weight_g
    confidence conversionNote (nutrition ing).

Definition convertIngredient (backend : ConvertBackend) (ingredient : Ingredient)
  : Eff Builder Conversion :=
  if decide (ing_unit ingredient = "g"%string) then
    ret (mkConversion (quantity ingredient) high None)
  else
    setConvertingIds (λ prev, prev ∪ {[ing_id ingredient]});;
    try_finally
      (try_catch
         (result ← convertIngredientToGrams backend
                     (description ingredient) (quantity ingredient)
                     (ing_unit ingredient);
          ret (mkConversion (res_grams result) (res_confidence result)
                 (res_note result)))
         (λ err,
            ret (mkConversion (quantity ingredient * #100) low
                   (Some "Conversion failed. Using rough estimate."%string))))
      (setConvertingIds (λ prev, prev ∖ {[ing_id ingredient]})).

(** The first [setIngredients] of [handleUnitChange]: the row(s) with the
    given id take the new unit; for ['g'] the weight is the quantity, for
    any other unit the row is marked as needing conversion. *)
Definition markUnit (id : Z) (unit : string) (prev : list Ingredient)
  : list Ingredient :=
  (λ ing,
     if decide (ing_id ing ≠ id) then ing
     else if decide (unit = "g"%string) then
       spread ing (quantity ing) unit (Some (quantity ing)) (Some high) None
     else
       spread ing (quantity ing) unit None None (conversionNote ing))
  <$> prev.

(** The first [setIngredients] of [handleQuantityChange]. *)
Definition markQuantity (id : Z) (parsedQuantity : Qc) (prev : list Ingredient)
  : list Ingredient :=
  (λ ing,
     if decide (ing_id ing ≠ id) then ing
     else if decide (ing_unit ing = "g"%string) then
       spread ing parsedQuantity (ing_unit ing) (Some parsedQuantity)
         (Some high) None
     else
       spread ing parsedQuantity (ing_unit ing) None None (conversionNote ing))
  <$> prev.

(** The [setIngredients] that stores a conversion result. *)
Definition storeConversion (id : Z) (result : Conversion)
    (prev : list Ingredient) : list Ingredient :=
  (λ ing,
     if decide (ing_id ing = id) then
       spread ing (quantity ing) (ing_unit ing) (Some (conv_grams result))
         (Some (conv_confidence result)) (conv_note result)
     else ing)
  <$> prev.

(** [ingredients.find((ing) => ing.id === id)] *)
Definition findById (id : Z) (ingredients : list Ingredient)
  : option Ingredient :=
  List.find (λ ing, bool_decide (ing_id ing = id)) ingredients.

Definition handleUnitChange (backend : ConvertBackend) (id : Z) (unit : string)
  : Eff Builder () :=
  rendered ← gets ingredients;
  setIngredients (markUnit id unit);;
  match findById id rendered with
  | Some ingredient =>
      if decide (unit ≠ "g"%string) then
        result ← convertIngredient backend
                   (spread ingredient (quantity ingredient) unit
                      (weight_g ingredient) (confidence ingredient)
                      (conversionNote ingredient));
        setIngredients (storeConversion id result)
      else ret ()
  | None => ret ()
  end.

(** [quantity] is the text of the input; [parsed] is [parseFloat(quantity)],
    [None] standing for [NaN]. *)
Definition handleQuantityChange (backend : ConvertBackend) (id : Z)
    (parsed : option Qc) : Eff Builder () :=
  let parsedQuantity := Num.orZero parsed in
  rendered ← gets ingredients;
  setIngredients (markQuantity id parsedQuantity);;
  match findById id rendered with
  | Some ingredient =>
      if decide (ing_unit ingredient ≠ "g"%string) then
        result ← convertIngredient backend
                   (spread ingredient parsedQuantity (ing_unit ingredient)
                      (weight_g ingredient) (confidence ingredient)
                      (conversionNote ingredient));
        setIngredients (storeConversion id result)
      else ret ()
  | None => ret ()
  end.

(** [handleAddIngredient]: [selected] is the object [IngredientSearch] hands
    over, of which the builder reads [description] and [nutrition]; [now] is
    [Date.now()]. *)
Definition handleAddIngredient (now : Z) (selected : string * Nutrition)
  : Eff Builder () :=
  let newIngredient :=
    mkIngredient now selected.1 #100 "g" (Some #100) (Some high) None
      selected.2 in
  setIngredients (λ prev, prev ++ [newIngredient]).

Definition handleRemoveIngredient (id : Z) : Eff Builder () :=
  setIngredients (filter (λ ing, ing_id ing ≠ id)).

(** The legacy handler for direct gram input; [parsed] is
    [parseFloat(weight)]. *)
Definition handleWeightChange (id : Z) (parsed : option Qc) : Eff Builder () :=
  setIngredients
    (fmap (λ ing,
       if decide (ing_id ing = id) then
         spread ing (quantity ing) (ing_unit ing) (Some (Num.orZero parsed))
           (Some high) None
       else ing)).

(** The [totalWeight] memo. *)
Definition totalWeight (ingredients : list Ingredient) : Qc :=
  foldl (λ sum ing, sum + Num.orZero (weight_g ing)) 0 ingredients.

(** [ing.weight_g != null && ing.weight_g > 0] *)
Definition converted (ing : Ingredient) : bool :=
  match weight_g ing with
  | Some w => Num.gtb0 w
  | None => false
  end.

(** The [combinedNutrition] memo: the only caller of [combineIngredients]. *)
Definition combinedNutrition (ingredients : list Ingredient)
  : option Nutrition :=
  let allConverted := forallb converted ingredients in
  if bool_decide (length ingredients = 0%nat) || negb allConverted then None
  else combineIngredients ingredients.

Definition hasLowConfidence (ingredients : list Ingredient) : bool :=
  existsb (λ ing, bool_decide (confidence ing = Some low)) ingredients.

Definition hasMediumConfidence (ingredients : list Ingredient) : bool :=
  existsb (λ ing, bool_decide (confidence ing = Some medium)) ingredients.

Definition hasWarnings (ingredients : list Ingredient) : bool :=
  hasLowConfidence ingredients || hasMediumConfidence ingredients.

Definition hasIncompleteConversions (ingredients : list Ingredient) : bool :=
  existsb (λ ing, bool_decide (weight_g ing = None)) ingredients.

(** The confidence warning banner under the ingredient table: absent, or
    rendered with class [warning-low] or [warning-medium]. *)
Inductive Banner : Set := NoBanner | WarningLow | WarningMedium.

Definition confidenceWarning (ingredients : list Ingredient) : Banner :=
  if hasWarnings ingredients && negb (hasIncompleteConversions ingredients)
  then (if hasLowConfidence ingredients then WarningLow else WarningMedium)
  else NoBanner.

(** The tier a banner state announces: no banner means nothing below
    [high]. *)
Definition bannerTier (b : Banner) : Confidence :=
  match b with
  | NoBanner => high
  | WarningMedium => medium
  | WarningLow => low
  end.

(** The order of the tiers, [low < medium < high]. *)
Definition rank (c : Confidence) : nat :=
  match c with low => 0 | medium => 1 | high => 2 end.

Definition worse (a b : Confidence) : Confidence :=
  if bool_decide (rank a ≤ rank b)%nat then a else b.

(** The worst tier among the ingredients that have one. *)
Definition worstConfidence (ingredients : list Ingredient) : Confidence :=
  foldr worse high (omap confidence ingredients).

(** ** RecipeReview: the initial yield weight *)

(** The fields of [recipeData.nutritionResult] read by [useState]; each may
    be missing. *)
Record NutritionResult : Type := mkNutritionResult {
  yield_weight_g : option Qc;
  total_raw_weight_g : option Qc;
}.

(** [a || b] on nullable numbers: [null] and [0] are falsy. *)
Definition or_number (a b : option Qc) : option Qc :=
  match a with
  | Some x => if decide (x = 0) then b else a
  | None => b
  end.

(** [nutritionResult?.yield_weight_g || nutritionResult?.total_raw_weight_g || 0] *)
Definition initialYieldWeight (nutritionResult : option NutritionResult) : Qc :=
  default 0
    (or_number
       (or_number (nutritionResult ≫= yield_weight_g)
                  (nutritionResult ≫= total_raw_weight_g))
       (Some 0)).

(** ** Yield normalisation *)

Inductive Validated (A : Type) : Type :=
  | Valid (a : A)
  | ValidationError.
Arguments Valid {A} a.
Arguments ValidationError {A}.

(** Modelled from the spec: the yield normaliser runs in the backend
    ([/recipe/calculate]), whose code is not part of the front end.  Section
    4.3: [normalized[k] = aggregate[k] * (total_raw_weight_g / yield_weight_g)]
    for every key, and [yield_weight_g <= 0] is rejected with a validation
    error. *)
Definition normalize (aggregate : Nutrition) (total_raw_weight_g : Qc)
    (yield_weight_g : Qc) : Validated Nutrition :=
  if Num.leb0 yield_weight_g then ValidationError
  else Valid ((λ v, v * (total_raw_weight_g / yield_weight_g)) <$> aggregate).

(** Modelled from the spec: the [nutritionResult] the backend hands to the
    review for a recipe with no declared yield.  Section 3: the total raw
    weight is the sum of all [resolved_grams], and [yield_weight_g] is
    [null] until the caller overrides it. *)
Definition undeclaredYield (ingredients : list Ingredient) : NutritionResult :=
  mkNutritionResult None (Some (total_mass ingredients)).

(** ** ServingSizeForm *)

(** Strings hold the UTF-8 encoding of the JavaScript string, one [ascii]
    per byte.  JavaScript white space within ASCII: tab, line feed, vertical
    tab, form feed, carriage return and space. *)
Definition is_white (c : ascii) : bool :=
  let n := nat_of_ascii c in
  ((9 <=? n) && (n <=? 13))%nat || (n =? 32)%nat.

(** The white space of two bytes: U+00A0, the no-break space. *)
Definition is_white2 (a b : ascii) : bool :=
  ((nat_of_ascii a =? 194) && (nat_of_ascii b =? 160))%nat.

(** The white space and line terminators of three bytes: U+1680, U+2000 to
    U+200A, U+2028, U+2029, U+202F, U+205F, U+3000 and U+FEFF. *)
Definition is_white3 (a b c : ascii) : bool :=
  let x := nat_of_ascii a in
  let y := nat_of_ascii b in
  let z := nat_of_ascii c in
  ( ((x =? 225) && (y =? 154) && (z =? 128))
    || ((x =? 226) && (y =? 128)
        && (((128 <=? z) && (z <=? 138)) || (z =? 168) || (z =? 169)
            || (z =? 175)))
    || ((x =? 226) && (y =? 129) && (z =? 159))
    || ((x =? 227) && (y =? 128) && (z =? 128))
    || ((x =? 239) && (y =? 187) && (z =? 191)) )%nat.

(** [String.prototype.trimStart]: the white space characters at the front
    are dropped, whatever their length in bytes. *)
Fixpoint trimStart (s : string) : string :=
  match s with
  | String a r1 =>
      if is_white a then trimStart r1
      else
        match r1 with
        | String b r2 =>
            if is_white2 a b then trimStart r2
            else
              match r2 with
              | String c r3 => if is_white3 a b c then trimStart r3 else s
              | EmptyString => s
              end
        | EmptyString => s
        end
  | EmptyString => EmptyString
  end.

(** The same on a reversed string, where the bytes of a character come last
    byte first. *)
Fixpoint trimStartReversed (s : string) : string :=
  match s with
  | String a r1 =>
      if is_white a then trimStartReversed r1
      else
        match r1 with
        | String b r2 =>
            if is_white2 b a then trimStartReversed r2
            else
              match r2 with
              | String c r3 =>
                  if is_white3 c b a then trimStartReversed r3 else s
              | EmptyString => s
              end
        | EmptyString => s
        end
  | EmptyString => EmptyString
  end.

(** [String.prototype.trim] *)
Definition trim (s : string) : string :=
  String.rev (trimStartReversed (String.rev (trimStart s))).

Record ServingConfig : Type := mkServingConfig {
  serving_size_g : Qc;
  serving_size_description : string;
  servings_per_container : Qc;
}.

Section ServingSizeForm.

(** The type of [data.per_serving], opaque to the form. *)
Variable PerServing : Type.

Inductive CalculateReply : Type :=
  | CalcRejected (message : string)
  | CalcFailure (error : option string)
  | CalcSuccess (per_serving : PerServing).

(** The state variables of the form, the requests posted to [/calculate]
    and the calls of the [onConfirm] prop. *)
Record Form : Type := mkForm {
  servingSizeG : Qc;
  servingDescription : string;
  servingsPerContainer : Qc;
  isCalculating : bool;
  error : option string;
  calculated : list (Nutrition * ServingConfig);
  confirmed : list (ServingConfig * PerServing);
}.

Variable backend : Nutrition → ServingConfig → CalculateReply.

Definition setError (e : option string) : Eff Form () :=
  modify (λ s, mkForm (servingSizeG s) (servingDescription s)
                 (servingsPerContainer s) (isCalculating s) e
                 (calculated s) (confirmed s)).

Definition setIsCalculating (b : bool) : Eff Form () :=
  modify (λ s, mkForm (servingSizeG s) (servingDescription s)
                 (servingsPerContainer s) b (error s)
                 (calculated s) (confirmed s)).

(** client.js: [calculatePerServing] *)
Definition calculatePerServing (nutrition : Nutrition)
    (servingConfig : ServingConfig) : Eff Form PerServing :=
  modify (λ s, mkForm (servingSizeG s) (servingDescription s)
                 (servingsPerContainer s) (isCalculating s) (error s)
                 (calculated s ++ [(nutrition, servingConfig)])
                 (confirmed s));;
  match backend nutrition servingConfig with
  | CalcRejected message => throw message
  | CalcFailure error => throw (or_string error "Calculation failed")
  | CalcSuccess per_serving => ret per_serving
  end.

Definition onConfirm (servingConfig : ServingConfig) (perServing : PerServing)
  : Eff Form () :=
  modify (λ s, mkForm (servingSizeG s) (servingDescription s)
                 (servingsPerContainer s) (isCalculating s) (error s)
                 (calculated s)
                 (confirmed s ++ [(servingConfig, perServing)])).

Definition handleSubmit (nutrition : Nutrition) : Eff Form () :=
  form ← gets id;
  setError None;;
  if Num.leb0 (servingSizeG form) then
    setError (Some "Serving size must be greater than 0"%string)
  else if Num.leb0 (servingsPerContainer form) then
    setError (Some "Servings per container must be greater than 0"%string)
  else if bool_decide (trim (servingDescription form) = ""%string) then
    setError (Some "Please enter a serving description"%string)
  else
    setIsCalculating true;;
    try_finally
      (try_catch
         (let servingConfig :=
            mkServingConfig (servingSizeG form) (servingDescription form)
              (servingsPerContainer form) in
          perServing ← calculatePerServing nutrition servingConfig;
          onConfirm servingConfig perServing)
         (λ message,
            setError (Some (or_string (Some message) "Calculation failed"))))
      (setIsCalculating false).

End ServingSizeForm.

Arguments CalcRejected {PerServing} message.
Arguments CalcFailure {PerServing} error.
Arguments CalcSuccess {PerServing} per_serving.

(** ** Vocabulary of the statements *)

(** An ingredient that cannot take part in the aggregation: its weight is
    [null] (the conversion has not come back) or not positive. *)
Definition unusable (ing : Ingredient) : Prop :=
  weight_g ing = None ∨ ∃ g, weight_g ing = Some g ∧ g ≤ 0.

(** A row that shows a confidence tier also has a weight. *)
Definition tierHasWeight (ing : Ingredient) : Prop :=
  is_Some (confidence ing) → is_Some (weight_g ing).

(** The request [convertIngredient] posts for an ingredient. *)
Definition requestOf (ingredient : Ingredient) : ConvertRequest :=
  mkConvertRequest (description ingredient) (quantity ingredient)
    (ing_unit ingredient).

(** The lookup fails or errors: the promise rejects or the backend answers
    [success: false]. *)
Definition lookupFails (backend : ConvertBackend) (ingredient : Ingredient)
  : Prop :=
  ∀ result, backend (requestOf ingredient) ≠ ConvertSuccess result.

(** The fallback of [convertIngredient]. *)
Definition estimate (ingredient : Ingredient) : Conversion :=
  mkConversion (quantity ingredient * #100) low
    (Some "Conversion failed. Using rough estimate."%string).

(** The row a change of unit to ['g'] leaves behind. *)
Definition directRow (ing : Ingredient) : Ingredient :=
  spread ing (quantity ing) "g" (Some (quantity ing)) (Some high) None.

(** A form with its [error] replaced and nothing else touched. *)
Definition withError {P : Type} (e : option string) (form : Form P) : Form P :=
  mkForm P (servingSizeG P form) (servingDescription P form)
    (servingsPerContainer P form) (isCalculating P form) e
    (calculated P form) (confirmed P form).

(** Backends used in the examples. *)
Definition offline : ConvertBackend := λ _, Rejected "Failed to fetch".

Definition noMatch : ConvertBackend :=
  λ _, ConvertFailure (Some "Unknown ingredient"%string).

Definition densityTable : ConvertBackend :=
  λ request, ConvertSuccess
               (mkConversionResult (req_quantity request * #125) medium
                  (Some "approximate density"%string)).

Definition emptyBuilder (rows : list Ingredient) : Builder :=
  mkBuilder rows ∅ [].

(** ** Sample data *)

Definition sample (id : Z) (name : string) (w : option Qc)
    (c : option Confidence) (facts : Nutrition) : Ingredient :=
  mkIngredient id name (Num.toNumber w) "g" w c None facts.

(** A: 200 g, 100 kcal and 10 g protein per 100 g;
    B: 100 g, 50 kcal and no protein per 100 g. *)
Definition ingredientA : Ingredient :=
  sample 1 "A" (Some #200) (Some high)
    (<["calories" := #100]> (<["protein_g" := #10]> ∅)).

Definition ingredientB : Ingredient :=
  sample 2 "B" (Some #100) (Some high)
    (<["calories" := #50]> (<["protein_g" := #0]> ∅)).

(** 100 g of a food whose record carries no nutrient at all. *)
Definition unlabelled : Ingredient :=
  sample 3 "unlabelled" (Some #100) (Some high) ∅.

(** A row whose conversion has not come back. *)
Definition pendingCup : Ingredient :=
  mkIngredient 4 "flour" #2 "cup" None None None (<["calories" := #364]> ∅).

(** Rows with a medium and a low confidence conversion. *)
Definition mediumCup : Ingredient :=
  mkIngredient 5 "milk" #1 "cup" (Some #244) (Some medium) None
    (<["calories" := #61]> ∅).

Definition lowCup : Ingredient :=
  mkIngredient 6 "dragon fruit" #1 "cup" (Some #100) (Some low)
    (Some "Conversion failed. Using rough estimate."%string)
    (<["calories" := #60]> ∅).

(** Forms as the inputs leave them: a cleared serving size (the
    [parseFloat(...) || 0] of the input handler gives 0), a negative number
    of servings, and the initial state of the component. *)
Definition clearedForm : Form Nutrition :=
  mkForm Nutrition 0 "1 serving (0g)" 1 false None [] [].

Definition negativeServingsForm : Form Nutrition :=
  mkForm Nutrition #30 "1 serving (30g)" (- #2) false None [] [].

Definition initialForm : Form Nutrition :=
  mkForm Nutrition #30 "1 serving (30g)" 1 false None [] [].

(** A calculator that answers with the profile it was sent. *)
Definition echoCalculator : Nutrition → ServingConfig → CalculateReply Nutrition :=
  λ nutrition _, CalcSuccess nutrition.

(** [{ ...ing, weight_g: ing.weight_g * c }] for a weight that is set. *)
Definition scaleWeight (c : Qc) (ing : Ingredient) : Ingredient :=
  spread ing (quantity ing) (ing_unit ing) ((λ w, w * c) <$> weight_g ing)
    (confidence ing) (conversionNote ing).

(** ** Further vocabulary *)

(** A row whose weight is set and positive. *)
Definition positiveWeight (ing : Ingredient) : Prop :=
  ∃ g, weight_g ing = Some g ∧ 0 < g.

(** A copy of a row with another weight. *)
Definition withWeight (w : option Qc) (ing : Ingredient) : Ingredient :=
  spread ing (quantity ing) (ing_unit ing) w (confidence ing)
    (conversionNote ing).

(** A food record that carries a key the aggregator does not know. *)
Definition withCaffeine : Ingredient :=
  sample 9 "espresso" (Some #30) (Some high)
    (<["caffeine_mg" := #212]> (<["calories" := #9]> ∅)).

(** What the lookup makes of an ingredient: the backend's result or, when
    the lookup fails, the estimate. *)
Definition lookupOutcome (backend : ConvertBackend) (ingredient : Ingredient)
  : Conversion :=
  match backend (requestOf ingredient) with
  | ConvertSuccess result =>
      mkConversion (res_grams result) (res_confidence result) (res_note result)
  | _ => estimate ingredient
  end.

(** A row has a weight exactly when it has a confidence tier. *)
Definition rowSettled (ing : Ingredient) : Prop :=
  is_Some (weight_g ing) ↔ is_Some (confidence ing).

(** What an edit must not touch: the key of the row, its name and its
    nutrition facts. *)
Definition rowIdentity (ing : Ingredient) : Z * string * Nutrition :=
  (ing_id ing, description ing, nutrition ing).

(** The handlers of [RecipeBuilder] as events, each with the backend that
    answers it, and a session as a sequence of events run one after the
    other. *)
Inductive BuilderEvent : Type :=
  | AddIngredient (now : Z) (selected : string * Nutrition)
  | RemoveIngredient (id : Z)
  | QuantityChange (id : Z) (parsed : option Qc)
  | UnitChange (id : Z) (unit : string)
  | WeightChange (id : Z) (parsed : option Qc).

Definition dispatch (backend : ConvertBackend) (event : BuilderEvent)
  : Eff Builder () :=
  match event with
  | AddIngredient now selected => handleAddIngredient now selected
  | RemoveIngredient id => handleRemoveIngredient id
  | QuantityChange id parsed => handleQuantityChange backend id parsed
  | UnitChange id unit => handleUnitChange backend id unit
  | WeightChange id parsed => handleWeightChange id parsed
  end.

Fixpoint runEvents (events : list (ConvertBackend * BuilderEvent))
  : Eff Builder () :=
  match events with
  | [] => ret ()
  | (backend, event) :: rest => dispatch backend event;; runEvents rest
  end.

(** The argument of [onRecipeComplete].  The rows are passed on as
    [{ description, quantity, unit, weight_g }]; the [fdc_id] the source
    copies along is not part of the row model. *)
Record RecipeComplete : Type := mkRecipeComplete {
  rc_product_name : string;
  rc_nutrition : Nutrition;
  rc_ingredients : list (string * Qc * string * option Qc);
  total_weight_g : Qc;
}.

(** [handleConfirm] of [RecipeBuilder]: [None] when it returns without
    calling [onRecipeComplete]. *)
Definition handleConfirm (recipeName : string) (rows : list Ingredient)
  : option RecipeComplete :=
  match combinedNutrition rows with
  | None => None
  | Some combined =>
      if bool_decide (length rows = 0%nat) then None
      else
        Some (mkRecipeComplete
                (or_string (Some recipeName) "Recipe")
                combined
                ((λ ing, (description ing, quantity ing, ing_unit ing,
                          weight_g ing)) <$> rows)
                (totalWeight rows))
  end.

(** A session used in the examples: two foods are added, the second is
    switched to cups while the backend is offline, then typed in grams. *)
Definition sampleSession : list (ConvertBackend * BuilderEvent) :=
  [ (offline, AddIngredient 10 ("flour"%string, <["calories" := #364]> ∅));
    (offline, AddIngredient 11 ("milk"%string, <["calories" := #61]> ∅));
    (offline, UnitChange 11 "cup");
    (densityTable, QuantityChange 11 (Some #2));
    (offline, WeightChange 10 (Some #250)) ].


(** A form that passes the three checks of [handleSubmit]. *)
Definition validForm {P : Type} (form : Form P) : Prop :=
  0 < servingSizeG P form ∧ 0 < servingsPerContainer P form ∧
  trim (servingDescription P form) ≠ ""%string.

(** White space outside ASCII: the no-break space U+00A0 and the
    ideographic space U+3000, in UTF-8. *)
Definition nbsp : string :=
  String (ascii_of_nat 194) (String (ascii_of_nat 160) EmptyString).

Definition ideographicSpace : string :=
  String (ascii_of_nat 227)
    (String (ascii_of_nat 128) (String (ascii_of_nat 128) EmptyString)).

(** The configuration [handleSubmit] builds from the form. *)
Definition configOf {P : Type} (form : Form P) : ServingConfig :=
  mkServingConfig (servingSizeG P form) (servingDescription P form)
    (servingsPerContainer P form).


Definition brokenCalculator
  : Nutrition → ServingConfig → CalculateReply Nutrition :=
  λ _ _, CalcFailure None.

Definition unreachableCalculator
  : Nutrition → ServingConfig → CalculateReply Nutrition :=
  λ _ _, CalcRejected "Failed to fetch".

(** ** client.js: [detectFileType] and the extraction calls

    Strings are UTF-8 bytes; the functions below only test for ASCII
    characters, whose bytes occur in no other character, and [toLowerCase]
    is modelled on the ASCII letters. *)

Definition lowerChar (c : ascii) : ascii :=
  let n := nat_of_ascii c in
  if ((65 <=? n) && (n <=? 90))%nat then ascii_of_nat (n + 32) else c.

Fixpoint toLowerCase (s : string) : string :=
  match s with
  | EmptyString => EmptyString
  | String c rest => String (lowerChar c) (toLowerCase rest)
  end.

(** [s.startsWith(prefix)] *)
Definition startsWith (s prefix : string) : bool := String.prefix prefix s.

(** [s.endsWith(suffix)]: some tail of [s] is [suffix]. *)
Fixpoint endsWith (s suffix : string) : bool :=
  bool_decide (s = suffix)
  || match s with
     | EmptyString => false
     | String _ rest => endsWith rest suffix
     end.

(** The alternatives of [/\.(png|jpg|jpeg|gif|bmp|tiff|webp)$/]. *)
Definition imageExtensions : list string :=
  ["png"; "jpg"; "jpeg"; "gif"; "bmp"; "tiff"; "webp"]%string.

Definition detectFileType (filename : string) : string :=
  let lower := toLowerCase filename in
  if endsWith lower ".pdf" then "pdf"%string
  else if existsb (λ ext, endsWith lower ("." +:+ ext)) imageExtensions
  then "image"%string
  else "text"%string.

(** The fields of a [File] the code reads. *)
Record File : Type := mkFile {
  file_name : string;
  file_type : string;
  file_size : Z;
}.

Inductive Endpoint : Set := ExtractEndpoint | RecipeExtractEndpoint.

(** The body posted to [/extract] or [/recipe/extract-from-file]. *)
Record ExtractRequest : Type := mkExtractRequest {
  endpoint : Endpoint;
  file_content : string;
  req_file_type : string;
  filename : string;
}.

Module FileUpload.

(** What the two extraction endpoints answer; [D] is the type of the
    extracted data handed to [onExtraction]. *)
Inductive ExtractReply (D : Type) : Type :=
  | ExtractRejected (message : string)
  | ExtractFailure (error : option string)
  | ExtractSuccess (data : D).
Arguments ExtractRejected {D} message.
Arguments ExtractFailure {D} error.
Arguments ExtractSuccess {D} data.

(** State of the component, the calls of the [onError] and [onExtraction]
    props, and the requests posted. *)
Record State (D : Type) : Type := mkState {
  isDragging : bool;
  isLoading : bool;
  fileName : option string;
  errors : list string;
  extractions : list D;
  posted : list ExtractRequest;
}.
Arguments mkState {D}.
Arguments isDragging {D}.
Arguments isLoading {D}.
Arguments fileName {D}.
Arguments errors {D}.
Arguments extractions {D}.
Arguments posted {D}.

Section Component.

Context {D : Type}.

(** [FileReader]: the base64 text of the file, or [None] when reading
    fails (the promise then rejects with an event that has no message). *)
Variable reader : File → option string.
Variable server : ExtractRequest → ExtractReply D.

(** Whether the component was mounted with [mode="recipe"]. *)
Variable isRecipeMode : bool.

Definition onError (message : string) : Eff (State D) () :=
  modify (λ s, mkState (isDragging s) (isLoading s) (fileName s)
                 (errors s ++ [message]) (extractions s) (posted s)).

Definition onExtraction (data : D) : Eff (State D) () :=
  modify (λ s, mkState (isDragging s) (isLoading s) (fileName s)
                 (errors s) (extractions s ++ [data]) (posted s)).

Definition setFileName (name : string) : Eff (State D) () :=
  modify (λ s, mkState (isDragging s) (isLoading s) (Some name)
                 (errors s) (extractions s) (posted s)).

Definition setIsLoading (b : bool) : Eff (State D) () :=
  modify (λ s, mkState (isDragging s) b (fileName s)
                 (errors s) (extractions s) (posted s)).

(** client.js: [fileToBase64] *)
Definition fileToBase64 (file : File) : Eff (State D) string :=
  match reader file with
  | Some base64 => ret base64
  | None => throw ""
  end.

(** client.js: [extractNutrition] and [extractRecipeFromFile], which
    differ in the endpoint and in the default message. *)
Definition extractFrom (target : Endpoint) (fallback : string) (file : File)
  : Eff (State D) D :=
  base64 ← fileToBase64 file;
  let fileType := detectFileType (file_name file) in
  let request := mkExtractRequest target base64 fileType (file_name file) in
  modify (λ s, mkState (isDragging s) (isLoading s) (fileName s)
                 (errors s) (extractions s) (posted s ++ [request]));;
  match server request with
  | ExtractRejected message => throw message
  | ExtractFailure error => throw (or_string error fallback)
  | ExtractSuccess data => ret data
  end.

Definition extractNutrition : File → Eff (State D) D :=
  extractFrom ExtractEndpoint "Extraction failed".

Definition extractRecipeFromFile : File → Eff (State D) D :=
  extractFrom RecipeExtractEndpoint "Recipe extraction failed".

Definition validTypes : list string :=
  ["application/pdf"; "image/png"; "image/jpeg"; "image/gif"; "text/plain"]%string.

(** [type.split('/')[0]] *)
Fixpoint beforeSlash (s : string) : string :=
  match s with
  | EmptyString => EmptyString
  | String c rest =>
      if bool_decide (c = "/"%char) then EmptyString
      else String c (beforeSlash rest)
  end.

Definition isValid (file : File) : bool :=
  existsb (λ type, startsWith (file_type file) (beforeSlash type)
                   || bool_decide (file_type file = type))
          validTypes.

(** [10 * 1024 * 1024] *)
Definition maxSize : Z := 10 * 1024 * 1024.

Definition handleFile (file : File) : Eff (State D) () :=
  if negb (isValid file) && negb (endsWith (file_name file) ".pdf") then
    onError "Please upload a PDF, image, or text file"
  else if bool_decide (file_size file > maxSize)%Z then
    onError "File size must be less than 10MB"
  else
    setFileName (file_name file);;
    setIsLoading true;;
    try_finally
      (try_catch
         (if isRecipeMode then
            data ← extractRecipeFromFile file;
            onExtraction data
          else
            data ← extractNutrition file;
            onExtraction data)
         (λ message,
            onError
              (or_string (Some message)
                 ("Failed to extract "
                  +:+ (if isRecipeMode then "recipe" else "nutrition")
                  +:+ " data"))))
      (setIsLoading false).

End Component.

End FileUpload.

(** The message of the [catch] of [handleFile] when the error has none. *)
Definition extractFallback (isRecipeMode : bool) : string :=
  "Failed to extract " +:+ (if isRecipeMode then "recipe" else "nutrition")
  +:+ " data".

(** The request an accepted file is posted with. *)
Definition requestFor (isRecipeMode : bool) (file : File) (base64 : string)
  : ExtractRequest :=
  mkExtractRequest
    (if isRecipeMode then RecipeExtractEndpoint else ExtractEndpoint)
    base64 (detectFileType (file_name file)) (file_name file).

(** Files and servers used in the examples. *)
Definition zipFile : File := mkFile "setup.zip" "application/zip" 2048.

Definition shoutedPdf : File := mkFile "SCAN.PDF" "" 2048.

Definition hugeImage : File := mkFile "label.png" "image/png" 10485761.

Definition smallImage : File := mkFile "label.JPG" "image/jpeg" 10485760.

Definition readable : File → option string := λ _, Some "QUJD"%string.

Definition echoServer : ExtractRequest → FileUpload.ExtractReply string :=
  λ request, FileUpload.ExtractSuccess (req_file_type request).

Definition idleUpload : FileUpload.State string :=
  FileUpload.mkState false false None [] [] [].

(** ** App.jsx: the steps of the wizard *)

Module App.

Inductive Step : Set :=
  | UPLOAD | RECIPE | RECIPE_REVIEW | EDIT | SERVING | PREVIEW.

#[global] Instance Step_eq_dec : EqDecision Step.
Proof. solve_decision. Defined.

(** The object kept in [extractedData]: the product read from a spec
    sheet, or the one the recipe handlers build. *)
Record ExtractedData : Type := mkExtractedData {
  product_name : option string;
  nutrition : option Nutrition;
  ingredients_list : option string;
  allergens : list string;
}.

(** What [RecipeReview] passes to [onConfirm], as far as the handler reads
    it: the rows are pairs of [name_normalized] and [name]. *)
Record ReviewedData : Type := mkReviewedData {
  recipe_name : option string;
  reviewed_ingredients : list (option string * string);
  nutrition_per_100g : option Nutrition;
}.

Section Wizard.

(** The types of the per-serving data, of the label data and of the
    result of a recipe extraction, all opaque to the wizard. *)
Variables P L R : Type.

Record State : Type := mkState {
  step : Step;
  extractedData : option ExtractedData;
  nutritionState : option Nutrition;
  servingConfig : option ServingConfig;
  perServing : option P;
  labelData : option L;
  error : option string;
  recipeData : option R;
}.

(** The values of the [useState] calls. *)
Definition initial : State :=
  mkState UPLOAD None None None None None None None.

Definition handleExtraction (data : ExtractedData) (s : State) : State :=
  mkState EDIT (Some data) (nutrition data) (servingConfig s) (perServing s)
    (labelData s) None (recipeData s).

Definition handleRecipeExtraction (data : R) (s : State) : State :=
  mkState RECIPE_REVIEW (extractedData s) (nutritionState s)
    (servingConfig s) (perServing s) (labelData s) None (Some data).

Definition handleRecipeReviewComplete (reviewedData : ReviewedData)
    (s : State) : State :=
  let ingredientsList :=
    String.concat ", "
      ((λ ing, or_string ing.1 ing.2) <$> reviewed_ingredients reviewedData) in
  mkState EDIT
    (Some (mkExtractedData (recipe_name reviewedData)
             (nutrition_per_100g reviewedData) (Some ingredientsList) []))
    (nutrition_per_100g reviewedData) (servingConfig s) (perServing s)
    (labelData s) None (recipeData s).

Definition handleRecipeComplete (recipe : RecipeComplete) (s : State)
  : State :=
  mkState EDIT
    (Some (mkExtractedData (Some (rc_product_name recipe))
             (Some (rc_nutrition recipe))
             (Some (String.concat ", "
                      ((λ i, i.1.1.1) <$> rc_ingredients recipe)))
             []))
    (Some (rc_nutrition recipe)) (servingConfig s) (perServing s)
    (labelData s) None (recipeData s).

Definition setStep (next : Step) (s : State) : State :=
  mkState next (extractedData s) (nutritionState s) (servingConfig s)
    (perServing s) (labelData s) (error s) (recipeData s).

Definition handleBuildRecipe : State → State := setStep RECIPE.

Definition handleNutritionConfirm (updatedNutrition : Nutrition) (s : State)
  : State :=
  mkState SERVING (extractedData s) (Some updatedNutrition) (servingConfig s)
    (perServing s) (labelData s) (error s) (recipeData s).

Definition handleServingConfirm (config : ServingConfig) (perServingData : P)
    (s : State) : State :=
  mkState PREVIEW (extractedData s) (nutritionState s) (Some config)
    (Some perServingData) (labelData s) (error s) (recipeData s).

Definition handleLabelGenerated (data : L) (s : State) : State :=
  mkState (step s) (extractedData s) (nutritionState s) (servingConfig s)
    (perServing s) (Some data) (error s) (recipeData s).

Definition handleStartOver (s : State) : State :=
  mkState UPLOAD None None None None None None None.

Definition handleBack (s : State) : State :=
  match step s with
  | EDIT => setStep UPLOAD s
  | RECIPE => setStep UPLOAD s
  | RECIPE_REVIEW => setStep UPLOAD s
  | SERVING => setStep EDIT s
  | PREVIEW => setStep SERVING s
  | UPLOAD => s
  end.

Definition setError (e : option string) (s : State) : State :=
  mkState (step s) (extractedData s) (nutritionState s) (servingConfig s)
    (perServing s) (labelData s) e (recipeData s).

(** Whether the step content renders a component: the guards
    [step === STEPS.X && data && ...] of the JSX. *)
Definition shown (s : State) : bool :=
  match step s with
  | UPLOAD | RECIPE => true
  | RECIPE_REVIEW => bool_decide (is_Some (recipeData s))
  | EDIT => bool_decide (is_Some (extractedData s))
  | SERVING => bool_decide (is_Some (nutritionState s))
  | PREVIEW => bool_decide (is_Some (perServing s))
  end.

(** The callbacks the wizard hands to its children. *)
Inductive Event : Type :=
  | OnExtraction (data : ExtractedData)
  | OnRecipeExtraction (data : R)
  | OnUploadError (message : string)
  | OnBuildRecipe
  | OnRecipeComplete (recipe : RecipeComplete)
  | OnRecipeReviewComplete (reviewedData : ReviewedData)
  | OnReviewError (message : string)
  | OnNutritionConfirm (updatedNutrition : Nutrition)
  | OnServingConfirm (config : ServingConfig) (perServingData : P)
  | OnLabelGenerated (data : L)
  | OnStartOver
  | OnBack
  | OnDismissError.

(** The step whose component holds the callback; [Back] is offered by
    every component but the upload page, and the error banner is always
    there. *)
Definition raisedAt (event : Event) (at_step : Step) : bool :=
  match event, at_step with
  | (OnExtraction _ | OnRecipeExtraction _ | OnUploadError _ | OnBuildRecipe),
    UPLOAD
  | OnRecipeComplete _, RECIPE
  | (OnRecipeReviewComplete _ | OnReviewError _), RECIPE_REVIEW
  | OnNutritionConfirm _, EDIT
  | OnServingConfirm _ _, SERVING
  | (OnLabelGenerated _ | OnStartOver), PREVIEW => true
  | OnBack, UPLOAD => false
  | OnBack, _ => true
  | OnDismissError, _ => true
  | _, _ => false
  end.

Definition handle (event : Event) : State → State :=
  match event with
  | OnExtraction data => handleExtraction data
  | OnRecipeExtraction data => handleRecipeExtraction data
  | OnUploadError message | OnReviewError message => setError (Some message)
  | OnBuildRecipe => handleBuildRecipe
  | OnRecipeComplete recipe => handleRecipeComplete recipe
  | OnRecipeReviewComplete reviewedData =>
      handleRecipeReviewComplete reviewedData
  | OnNutritionConfirm updatedNutrition =>
      handleNutritionConfirm updatedNutrition
  | OnServingConfirm config perServingData =>
      handleServingConfirm config perServingData
  | OnLabelGenerated data => handleLabelGenerated data
  | OnStartOver => handleStartOver
  | OnBack => handleBack
  | OnDismissError => setError None
  end.

(** A session: each callback is delivered while the component that holds
    it is shown; [None] if the sequence asks for one that is not. *)
Fixpoint run (events : list Event) (s : State) : option State :=
  match events with
  | [] => Some s
  | event :: rest =>
      if raisedAt event (step s) && shown s then run rest (handle event s)
      else None
  end.

(** What the handlers keep true between the steps: the data of a step and
    of every step [Back] can lead to from it is there. *)
Definition coherent (s : State) : bool :=
  match step s with
  | UPLOAD | RECIPE => true
  | RECIPE_REVIEW => bool_decide (is_Some (recipeData s))
  | EDIT => bool_decide (is_Some (extractedData s))
  | SERVING =>
      bool_decide (is_Some (extractedData s))
      && bool_decide (is_Some (nutritionState s))
  | PREVIEW =>
      bool_decide (is_Some (extractedData s))
      && bool_decide (is_Some (nutritionState s))
      && bool_decide (is_Some (perServing s))
  end.

End Wizard.

Arguments mkState {P L R}.
Arguments step {P L R}.
Arguments extractedData {P L R}.
Arguments nutritionState {P L R}.
Arguments servingConfig {P L R}.
Arguments perServing {P L R}.
Arguments labelData {P L R}.
Arguments error {P L R}.
Arguments recipeData {P L R}.
Arguments initial {P L R}.
Arguments handleExtraction {P L R}.
Arguments handleRecipeExtraction {P L R}.
Arguments handleRecipeReviewComplete {P L R}.
Arguments handleRecipeComplete {P L R}.
Arguments setStep {P L R}.
Arguments handleBuildRecipe {P L R}.
Arguments handleNutritionConfirm {P L R}.
Arguments handleServingConfirm {P L R}.
Arguments handleLabelGenerated {P L R}.
Arguments handleStartOver {P L R}.
Arguments handleBack {P L R}.
Arguments setError {P L R}.
Arguments shown {P L R}.
Arguments OnExtraction {P L R}.
Arguments OnRecipeExtraction {P L R}.
Arguments OnUploadError {P L R}.
Arguments OnBuildRecipe {P L R}.
Arguments OnRecipeComplete {P L R}.
Arguments OnRecipeReviewComplete {P L R}.
Arguments OnReviewError {P L R}.
Arguments OnNutritionConfirm {P L R}.
Arguments OnServingConfirm {P L R}.
Arguments OnLabelGenerated {P L R}.
Arguments OnStartOver {P L R}.
Arguments OnBack {P L R}.
Arguments OnDismissError {P L R}.
Arguments raisedAt {P L R}.
Arguments handle {P L R}.
Arguments run {P L R}.
Arguments coherent {P L R}.

End App.

(** ** LabelPreview: the effect run on mount

    [useEffect(() => { if (!labelData) generateLabelImage() }, [])]: whether
    mounting the preview asks for a label. *)
Definition generatesOnMount {L : Type} (labelData : option L) : bool :=
  negb (bool_decide (is_Some labelData)).

(** A walk through the wizard used in the examples: a spec sheet is
    read, confirmed, given a serving size, and the user steps back once. *)
Definition sampleWalk : list (App.Event string string string) :=
  [ App.OnExtraction
      (App.mkExtractedData (Some "Granola"%string)
         (Some (<["calories" := #450]> ∅)) None []);
    App.OnNutritionConfirm (<["calories" := #450]> ∅);
    App.OnServingConfirm (mkServingConfig #30 "1 serving (30g)" 1)
      "per serving"%string;
    App.OnLabelGenerated "label"%string;
    App.OnBack ].

(** ** IngredientSearch *)

Module IngredientSearch.

(** [toggleDataType]: the updater passed to [setSelectedTypes]. *)
Definition toggleDataType (type : string) (prev : list string) : list string :=
  if bool_decide (type ∈ prev) then filter (λ t, t ≠ type) prev
  else prev ++ [type].

(** The query string [searchUSDAFoods] builds: [q], and [data_types] and
    [page_size] when they are set. *)
Record SearchParams : Type := mkSearchParams {
  q : string;
  data_types : option string;
  page_size : option string;
}.

Inductive SearchReply (F : Type) : Type :=
  | SearchRejected (message : string)
  | SearchFailure (error : option string)
  | SearchSuccess (results : list F).
Arguments SearchRejected {F} message.
Arguments SearchFailure {F} error.
Arguments SearchSuccess {F} results.

(** State of the component and the searches sent; [F] is the type of a
    food in the result list. *)
Record State (F : Type) : Type := mkState {
  query : string;
  results : list F;
  loading : bool;
  error : option string;
  selectedTypes : list string;
  searches : list SearchParams;
}.
Arguments mkState {F}.
Arguments query {F}.
Arguments results {F}.
Arguments loading {F}.
Arguments error {F}.
Arguments selectedTypes {F}.
Arguments searches {F}.

Section Component.

Context {F : Type}.
Variable server : SearchParams → SearchReply F.

Definition setLoading (b : bool) : Eff (State F) () :=
  modify (λ s, mkState (query s) (results s) b (error s) (selectedTypes s)
                 (searches s)).

Definition setError (e : option string) : Eff (State F) () :=
  modify (λ s, mkState (query s) (results s) (loading s) e (selectedTypes s)
                 (searches s)).

Definition setResults (foods : list F) : Eff (State F) () :=
  modify (λ s, mkState (query s) foods (loading s) (error s)
                 (selectedTypes s) (searches s)).

(** client.js: [searchUSDAFoods].  [dataTypes] is [None] for
    [undefined]; the page size is the literal 25 of the caller. *)
Definition searchUSDAFoods (text : string) (dataTypes : option (list string))
  : Eff (State F) (list F) :=
  let params :=
    mkSearchParams text
      (match dataTypes with
       | Some (t :: ts) => Some (String.concat "," (t :: ts))
       | _ => None
       end)
      (Some "25"%string) in
  modify (λ s, mkState (query s) (results s) (loading s) (error s)
                 (selectedTypes s) (searches s ++ [params]));;
  match server params with
  | SearchRejected message => throw message
  | SearchFailure error => throw (or_string error "USDA search failed")
  | SearchSuccess found => ret found
  end.

Definition handleSearch : Eff (State F) () :=
  s ← gets id;
  if bool_decide (trim (query s) = ""%string) then ret ()
  else
    setLoading true;;
    setError None;;
    setResults [];;
    try_finally
      (try_catch
         (foods ← searchUSDAFoods (query s)
                    (match selectedTypes s with
                     | [] => None
                     | types => Some types
                     end);
          setResults foods)
         (λ message, setError (Some message)))
      (setLoading false).

End Component.

End IngredientSearch.

(** ** LabelPreview: the name of the download *)

(** A character [/[^a-z0-9]/gi] does not match. *)
Definition isAlnum (c : ascii) : bool :=
  let n := nat_of_ascii c in
  ((48 <=? n) && (n <=? 57) || (65 <=? n) && (n <=? 90)
   || (97 <=? n) && (n <=? 122))%nat.

(** The bytes of a character outside ASCII: the bytes after the first are
    in the range 128 to 191, and a first byte from 240 on starts a character
    beyond U+FFFF, which is two code units (a surrogate pair) of the
    JavaScript string. *)
Definition isContinuation (c : ascii) : bool :=
  ((128 <=? nat_of_ascii c) && (nat_of_ascii c <=? 191))%nat.

Definition isAstralLead (c : ascii) : bool := (240 <=? nat_of_ascii c)%nat.

(** [productName.replace(/[^a-z0-9]/gi, '-')]: every code unit that is not
    an ASCII letter or digit becomes a hyphen.  A character outside ASCII
    gives its hyphens at its first byte, one per code unit, and nothing at
    the bytes that follow. *)
Fixpoint sanitize (s : string) : string :=
  match s with
  | EmptyString => EmptyString
  | String c rest =>
      if isAlnum c then String c (sanitize rest)
      else if isContinuation c then sanitize rest
      else if isAstralLead c then String "-" (String "-" (sanitize rest))
      else String "-" (sanitize rest)
  end.

(** The [download] attribute set by [downloadPNG] and [downloadPDF];
    [extension] is ["png"] or ["pdf"]. *)
Definition downloadName (productName : option string) (extension : string)
  : string :=
  "nutrition-label"
  +:+ (match productName with
       | Some name =>
           if bool_decide (name = ""%string) then ""%string
           else "-" +:+ sanitize name
       | None => ""%string
       end)
  +:+ "." +:+ extension.

(** A character that is a letter, a digit, a hyphen or a dot. *)
Definition isSafe (c : ascii) : bool :=
  isAlnum c || bool_decide (c = "-"%char) || bool_decide (c = "."%char).

(** What the replacement makes of one ASCII character. *)
Definition hyphenate (c : ascii) : ascii :=
  if isAlnum c then c else "-"%char.

(** A string of ASCII characters. *)
Definition isAsciiString (s : string) : bool :=
  forallb (λ c, nat_of_ascii c <? 128)%nat (list_ascii_of_string s).

(** Product names outside ASCII, in UTF-8: the Greek letter pi (U+03C0)
    followed by [r2], and a bread emoji (U+1F35E) followed by [mix]. *)
Definition piR2 : string :=
  String (ascii_of_nat 207) (String (ascii_of_nat 128) "r2").

Definition breadMix : string :=
  String (ascii_of_nat 240)
    (String (ascii_of_nat 159)
       (String (ascii_of_nat 141) (String (ascii_of_nat 158) " mix"))).

(** ** RecipeReview: recalculation *)

Module RecipeReview.

Inductive RecalcReply : Type :=
  | RecalcRejected (message : string)
  | RecalcFailure (error : option string)
  | RecalcSuccess (result : NutritionResult).

(** State of the component, the yield weights posted to
    [/recipe/calculate] and the calls of the [onError] prop. *)
Record State : Type := mkState {
  nutritionResult : option NutritionResult;
  yieldWeight : Qc;
  isRecalculating : bool;
  recalculations : list Qc;
  reported : list string;
}.

(** What the server makes of a yield weight (the recipe is fixed while the
    component is mounted). *)
Abbreviation Server := (Qc → RecalcReply).

(** [handleYieldWeightChange]; [parsed] is [parseFloat(e.target.value)]. *)
Definition handleYieldWeightChange (parsed : option Qc) : Eff State () :=
  modify (λ s, mkState (nutritionResult s) (Num.orZero parsed)
                 (isRecalculating s) (recalculations s) (reported s)).

Definition setIsRecalculating (b : bool) : Eff State () :=
  modify (λ s, mkState (nutritionResult s) (yieldWeight s) b
                 (recalculations s) (reported s)).

Definition setNutritionResult (result : NutritionResult) : Eff State () :=
  modify (λ s, mkState (Some result) (yieldWeight s) (isRecalculating s)
                 (recalculations s) (reported s)).

Definition onError (message : string) : Eff State () :=
  modify (λ s, mkState (nutritionResult s) (yieldWeight s) (isRecalculating s)
                 (recalculations s) (reported s ++ [message])).

(** client.js: [calculateRecipeNutrition] *)
Definition calculateRecipeNutrition (server : Server) (yieldWeightG : Qc)
  : Eff State NutritionResult :=
  modify (λ s, mkState (nutritionResult s) (yieldWeight s) (isRecalculating s)
                 (recalculations s ++ [yieldWeightG]) (reported s));;
  match server yieldWeightG with
  | RecalcRejected message => throw message
  | RecalcFailure error => throw (or_string error "Recipe calculation failed")
  | RecalcSuccess result => ret result
  end.

Definition handleRecalculate (server : Server) : Eff State () :=
  s ← gets id;
  setIsRecalculating true;;
  try_finally
    (try_catch
       (result ← calculateRecipeNutrition server (yieldWeight s);
        setNutritionResult result)
       (λ message,
          onError (or_string (Some message) "Failed to recalculate nutrition")))
    (setIsRecalculating false).

End RecipeReview.

(** States and servers used in the examples. *)
Definition typedSearch : IngredientSearch.State string :=
  IngredientSearch.mkState "oat flour" ["stale"%string] false
    (Some "old error"%string) [] [].

Definition searchDown : IngredientSearch.SearchParams
                        → IngredientSearch.SearchReply string :=
  λ _, IngredientSearch.SearchFailure None.

Definition reviewOfStew : RecipeReview.State :=
  RecipeReview.mkState (Some (mkNutritionResult (Some #250) (Some #300)))
    #250 false [] [].

Definition refusingServer : RecipeReview.Server :=
  λ yield, if Num.leb0 yield
           then RecipeReview.RecalcFailure
                  (Some "yield_weight_g must be positive"%string)
           else RecipeReview.RecalcSuccess
                  (mkNutritionResult (Some yield) (Some #300)).

(** The parameters [handleSearch] asks for in a given state. *)
Definition searchParamsOf {F : Type} (s : IngredientSearch.State F)
  : IngredientSearch.SearchParams :=
  IngredientSearch.mkSearchParams (IngredientSearch.query s)
    (match IngredientSearch.selectedTypes s with
     | [] => None
     | types => Some (String.concat "," types)
     end)
    (Some "25"%string).

(** ** RecipeBuilder: the handlers around their [await]

    [handleQuantityChange] and [handleUnitChange] suspend once, at the
    [await] of the conversion request, and other handlers run until the
    reply settles the promise.  The computations below are the part of a
    handler before the suspension and the part after it; run one right
    after the other, with the reply of the backend, they are the handler
    itself. *)

(** [convertIngredient] for a unit other than ['g'], up to the [await]: the
    id is added to [convertingIds] and the request is posted. *)
Definition requestConversion (ingredient : Ingredient) : Eff Builder () :=
  setConvertingIds (λ prev, prev ∪ {[ing_id ingredient]});;
  post (mkConvertRequest (description ingredient) (quantity ingredient)
          (ing_unit ingredient)).

(** [convertIngredient] from the [await] on: the reply settles the promise,
    [catch] turns a failure into the estimate and [finally] removes the
    id. *)
Definition settleConversion (reply : ConvertReply) (ingredient : Ingredient)
  : Eff Builder Conversion :=
  try_finally
    (try_catch
       (result ← match reply with
                 | Rejected message => throw message
                 | ConvertFailure error =>
                     throw (or_string error "Conversion failed")
                 | ConvertSuccess result => ret result
                 end;
        ret (mkConversion (res_grams result) (res_confidence result)
               (res_note result)))
       (λ err,
          ret (mkConversion (quantity ingredient * #100) low
                 (Some "Conversion failed. Using rough estimate."%string))))
    (setConvertingIds (λ prev, prev ∖ {[ing_id ingredient]})).

(** [handleQuantityChange] up to its [await]; the result is the ingredient
    whose conversion was asked for, if one was. *)
Definition startQuantityChange (id : Z) (parsed : option Qc)
  : Eff Builder (option Ingredient) :=
  let parsedQuantity := Num.orZero parsed in
  rendered ← gets ingredients;
  setIngredients (markQuantity id parsedQuantity);;
  match findById id rendered with
  | Some ingredient =>
      if decide (ing_unit ingredient ≠ "g"%string) then
        let asked :=
          spread ingredient parsedQuantity (ing_unit ingredient)
            (weight_g ingredient) (confidence ingredient)
            (conversionNote ingredient) in
        requestConversion asked;; ret (Some asked)
      else ret None
  | None => ret None
  end.

(** [handleUnitChange] up to its [await]. *)
Definition startUnitChange (id : Z) (unit : string)
  : Eff Builder (option Ingredient) :=
  rendered ← gets ingredients;
  setIngredients (markUnit id unit);;
  match findById id rendered with
  | Some ingredient =>
      if decide (unit ≠ "g"%string) then
        let asked :=
          spread ingredient (quantity ingredient) unit
            (weight_g ingredient) (confidence ingredient)
            (conversionNote ingredient) in
        requestConversion asked;; ret (Some asked)
      else ret None
  | None => ret None
  end.

(** Either handler from its [await] on, when the reply to the request for
    [asked] is there: the conversion settles and its result is stored in
    the row(s) with the id. *)
Definition resumeChange (id : Z) (asked : Ingredient) (reply : ConvertReply)
  : Eff Builder () :=
  result ← settleConversion reply asked;
  setIngredients (storeConversion id result).

(** [const isConverting = convertingIds.size > 0] *)
Definition isConverting (s : Builder) : bool :=
  bool_decide (0 < size (convertingIds s))%nat.

(** The [disabled] attribute of the confirm button:
    [!combinedNutrition || ingredients.length === 0 || isConverting]. *)
Definition confirmDisabled (s : Builder) : bool :=
  match combinedNutrition (ingredients s) with
  | None => true
  | Some _ => false
  end
  || bool_decide (length (ingredients s) = 0%nat)
  || isConverting s.

(** Two quantities typed into the row of [mediumCup] one after the other,
    the reply to the first arriving after the second was typed. *)
Definition twoKeystrokes : Builder := emptyBuilder [ingredientA; mediumCup].

Definition askedFirst : Ingredient :=
  spread mediumCup (Num.orZero (Some #2)) "cup" (Some #244) (Some medium)
    None.

Definition askedSecond : Ingredient :=
  spread mediumCup (Num.orZero (Some #3)) "cup" None None None.

(** ** client.js: [combineIngredients] on binary64

    The same function on the numbers JavaScript computes with: IEEE 754
    binary64 with rounding to nearest at every operation, the primitive
    floats of the kernel.  Of an ingredient only the two fields the function
    reads are kept. *)

Module Double.

Record Ingredient : Type := mkIngredient {
  weight_g : option float;
  nutrition : gmap string float;
}.

(** [ToNumber] on a nullable number. *)
Definition toNumber (v : option float) : float := default 0%float v.

(** The object literal [combined]: every key of the literal at 0. *)
Definition combined_init : gmap string float :=
  list_to_map ((λ key, (key, 0%float)) <$> combined_keys).

(** [ingredients.reduce((sum, ing) => sum + ing.weight_g, 0)] *)
Definition sumWeights (ingredients : list Ingredient) : float :=
  foldl (λ sum ing, (sum + toNumber (weight_g ing))%float) 0%float
    ingredients.

Definition get (combined : gmap string float) (key : string) : float :=
  default 0%float (combined !! key).

(** Body of [for (const ing of ingredients)]. *)
Definition addWeighted (combined : gmap string float) (ing : Ingredient)
  : gmap string float :=
  let factor := (toNumber (weight_g ing) / 100)%float in
  foldl (λ combined key,
           match nutrition ing !! key with
           | Some v =>
               <[key := (get combined key + v * factor)%float]> combined
           | None => combined
           end)
        combined combined_keys.

(** The second loop: [combined[key] = combined[key] * per100gFactor]. *)
Definition rescale (per100gFactor : float) (combined : gmap string float)
  : gmap string float :=
  foldl (λ combined key,
           <[key := (get combined key * per100gFactor)%float]> combined)
        combined combined_keys.

(** [totalWeight === 0] is the comparison of IEEE 754: it holds of both
    zeros and of no [NaN]. *)
Definition combineIngredients (ingredients : list Ingredient)
  : option (gmap string float) :=
  let totalWeight := sumWeights ingredients in
  if PrimFloat.eqb totalWeight 0 then None
  else
    let combined := foldl addWeighted combined_init ingredients in
    let per100gFactor := (100 / totalWeight)%float in
    Some (rescale per100gFactor combined).

(** [{ ...ing, weight_g: ing.weight_g * c }] for a weight that is set. *)
Definition scaleWeight (c : float) (ing : Ingredient) : Ingredient :=
  mkIngredient ((λ w, (w * c)%float) <$> weight_g ing) (nutrition ing).

(** A row of so many grams of a food with so many kcal per 100 g. *)
Definition row (grams kcal : float) : Ingredient :=
  mkIngredient (Some grams) (<["calories"%string := kcal]> ∅).

(** [result && result.calories] *)
Definition calories (result : option (gmap string float)) : option float :=
  result ≫= (.!! "calories"%string).

End Double.

(** The states the four steps lead through. *)
Definition afterFirstKeystroke : Builder :=
  (startQuantityChange 5 (Some #2) twoKeystrokes).2.

Definition afterSecondKeystroke : Builder :=
  (startQuantityChange 5 (Some #3) afterFirstKeystroke).2.

Definition afterFirstReply : Builder :=
  (resumeChange 5 askedFirst (densityTable (requestOf askedFirst))
     afterSecondKeystroke).2.

Definition afterSecondReply : Builder :=
  (resumeChange 5 askedSecond (densityTable (requestOf askedSecond))
     afterFirstReply).2.

(** A row switched to cups and, before the reply is there, back to
    grams. *)
Definition askedCup : Ingredient :=
  spread ingredientB #100 "cup" (Some #100) (Some high) None.

Definition afterUnitCup : Builder :=
  (startUnitChange 2 "cup" (emptyBuilder [ingredientA; ingredientB])).2.

Definition afterUnitGrams : Builder :=
  (handleUnitChange densityTable 2 "g" afterUnitCup).2.

Definition afterLateReply : Builder :=
  (resumeChange 2 askedCup (densityTable (requestOf askedCup))
     afterUnitGrams).2.

(** * Aggregation: the loops of [combineIngredients] *)

Section KeyLoop.

(** A loop [for (const key of keys) m = h(m, key)] whose body touches the
    entry of its own key only, and computes it from the old entry. *)
Variable h : Nutrition → string → Nutrition.
Variable phi : string → option Qc → option Qc.
Hypothesis h_frame : ∀ m key j, j ≠ key → h m key !! j = m !! j.
Hypothesis h_own : ∀ m key, h m key !! key = phi key (m !! key).

Lemma key_loop_other keys : ∀ m j, j ∉ keys → foldl h m keys !! j = m !! j.
Proof.
  induction keys as [|key keys IH]; intros m j Hj; simpl; [done|].
  apply not_elem_of_cons in Hj as [Hne Hj].
  rewrite IH by done. by apply h_frame.
Qed.

Lemma key_loop_own keys :
  NoDup keys → ∀ m j, j ∈ keys → foldl h m keys !! j = phi j (m !! j).
Proof.
  induction 1 as [|key keys Hnotin Hnd IH]; intros m j Hj; simpl.
  - by apply elem_of_nil in Hj.
  - destruct (decide (j = key)) as [->|Hne].
    + rewrite key_loop_other by done. apply h_own.
    + apply elem_of_cons in Hj as [?|Hj]; [done|].
      rewrite IH by done. by rewrite h_frame.
Qed.

End KeyLoop.

Lemma combined_keys_NoDup : NoDup combined_keys.
Proof. apply (bool_decide_unpack _). vm_compute. exact I. Qed.

Lemma combined_init_lookup k :
  combined_init !! k = if decide (k ∈ combined_keys) then Some 0 else None.
Proof.
  unfold combined_init. case_decide as Hk.
  - apply elem_of_list_to_map_1; [apply combined_keys_NoDup|].
    unfold combined_keys in Hk. apply list_elem_of_fmap in Hk as [[k' v] [-> Hin]].
    assert (v = 0) as ->; [|done].
    revert Hin. unfold combined_literal. rewrite !elem_of_cons, elem_of_nil.
    intros H; repeat destruct H as [H|H]; try done; by inversion H.
  - by apply not_elem_of_list_to_map_1.
Qed.

(** The entry of [key] after the inner loop of one ingredient. *)
Lemma addWeighted_lookup combined ing j :
  addWeighted combined ing !! j =
    if decide (j ∈ combined_keys) then
      match nutrition ing !! j with
      | Some v => Some (get combined j + v * (grams ing / #100))
      | None => combined !! j
      end
    else combined !! j.
Proof.
  unfold addWeighted. case_decide as Hj.
  - rewrite (key_loop_own _
      (λ key old, match nutrition ing !! key with
                  | Some v => Some (default 0 old + v * (grams ing / #100))
                  | None => old
                  end)); [done| | |apply combined_keys_NoDup|done].
    + intros m key i Hne. destruct (nutrition ing !! key); [|done].
      by rewrite lookup_insert_ne.
    + intros m key. destruct (nutrition ing !! key); [|done].
      by rewrite lookup_insert_eq.
  - apply key_loop_other; [|done].
    intros m key i Hne. destruct (nutrition ing !! key); [|done].
    by rewrite lookup_insert_ne.
Qed.

Lemma rescale_lookup f combined j :
  rescale f combined !! j =
    if decide (j ∈ combined_keys) then Some (get combined j * f)
    else combined !! j.
Proof.
  unfold rescale. case_decide as Hj.
  - rewrite (key_loop_own _ (λ key old, Some (default 0 old * f)));
      [done| | |apply combined_keys_NoDup|done].
    + intros m key i Hne. by rewrite lookup_insert_ne.
    + intros m key. by rewrite lookup_insert_eq.
  - apply key_loop_other; [|done].
    intros m key i Hne. by rewrite lookup_insert_ne.
Qed.

(** The outer loop keeps every key of the literal defined and adds, per key,
    the contributions of the ingredients that carry it. *)
Lemma addWeighted_loop_lookup ingredients : ∀ combined j,
  j ∈ combined_keys → is_Some (combined !! j) →
  foldl addWeighted combined ingredients !! j =
    Some (get combined j + weighted_sum j ingredients).
Proof.
  induction ingredients as [|ing ingredients IH]; intros combined j Hj [x Hx];
    simpl.
  - unfold get. rewrite Hx. simpl. f_equal. ring.
  - assert (addWeighted combined ing !! j =
              Some (x + grams ing / #100 * profile ing j)) as Hstep.
    { rewrite addWeighted_lookup, decide_True by done.
      unfold profile, get. rewrite Hx.
      destruct (nutrition ing !! j); simpl; f_equal; ring. }
    rewrite IH by (done || by rewrite Hstep).
    unfold get. rewrite Hstep, Hx. simpl. f_equal. ring.
Qed.

Lemma addWeighted_loop_other ingredients : ∀ combined j,
  j ∉ combined_keys →
  foldl addWeighted combined ingredients !! j = combined !! j.
Proof.
  induction ingredients as [|ing ingredients IH]; intros combined j Hj;
    simpl; [done|].
  rewrite IH by done. by rewrite addWeighted_lookup, decide_False.
Qed.

Lemma sumWeights_from acc ingredients :
  foldl (λ sum ing, sum + Num.toNumber (weight_g ing)) acc ingredients
  = acc + total_mass ingredients.
Proof.
  revert acc. induction ingredients as [|ing ingredients IH]; intros acc;
    simpl.
  - ring.
  - rewrite IH. unfold grams. ring.
Qed.

Lemma sumWeights_total_mass ingredients :
  sumWeights ingredients = total_mass ingredients.
Proof. unfold sumWeights. rewrite sumWeights_from. ring. Qed.

(** What [combineIngredients] returns, entry by entry. *)
Lemma combineIngredients_Some ingredients :
  total_mass ingredients ≠ 0 →
  ∃ combined,
    combineIngredients ingredients = Some combined ∧
    ∀ k, combined !! k =
           if decide (k ∈ combined_keys)
           then Some (weighted_sum k ingredients
                      * (#100 / total_mass ingredients))
           else None.
Proof.
  intros Hmass. unfold combineIngredients.
  rewrite sumWeights_total_mass, decide_False by done.
  eexists; split; [done|]. intros k.
  rewrite rescale_lookup. case_decide as Hk.
  - unfold get at 1. rewrite addWeighted_loop_lookup; [|done|].
    + simpl. unfold get. rewrite combined_init_lookup, decide_True by done.
      simpl. f_equal. ring.
    + rewrite combined_init_lookup, decide_True by done. by eexists.
  - rewrite addWeighted_loop_other by done.
    by rewrite combined_init_lookup, decide_False.
Qed.

Lemma combineIngredients_None ingredients :
  total_mass ingredients = 0 → combineIngredients ingredients = None.
Proof.
  intros Hmass. unfold combineIngredients.
  by rewrite sumWeights_total_mass, decide_True.
Qed.

(** ** Arithmetic of the sums *)

(** Closed equations between rationals, by evaluation of both sides. *)
Ltac qc_eval :=
  solve [ reflexivity
        | apply Qc_is_canon; reflexivity
        | f_equal; apply Qc_is_canon; reflexivity ].

(** Membership in a concrete key list, by evaluation. *)
Ltac key_eval := apply (bool_decide_unpack _); vm_compute; exact I.

Lemma lit_100_nonzero : #100 ≠ 0.
Proof. intros H. by apply (f_equal this) in H. Qed.

Lemma total_mass_positive ingredients :
  ingredients ≠ [] →
  Forall (λ ing, ∃ g, weight_g ing = Some g ∧ 0 < g) ingredients →
  0 < total_mass ingredients.
Proof.
  intros Hne Hall. destruct Hall as [|ing rest (g & Hg & Hpos) Hrest]; [done|].
  clear Hne. simpl. apply Qcplus_pos_nonneg.
  - unfold grams. by rewrite Hg.
  - induction Hrest as [|ing' rest' (g' & Hg' & Hpos') _ IH]; simpl; [done|].
    apply Qcplus_nonneg_nonneg; [|done].
    unfold grams. rewrite Hg'. by apply Qclt_le_weak.
Qed.

Lemma weighted_sum_unsupplied k ingredients :
  supplied k ingredients = false → weighted_sum k ingredients = 0.
Proof.
  induction ingredients as [|ing rest IH]; simpl; [done|].
  intros [Hing Hrest]%orb_false_elim. rewrite IH by done.
  apply bool_decide_eq_false in Hing.
  unfold profile. destruct (nutrition ing !! k) eqn:E.
  - destruct Hing. by eexists.
  - simpl. ring.
Qed.

Lemma weighted_sum_suppliers k ingredients :
  weighted_sum k
    (filter (λ ing, is_Some (nutrition ing !! k)) ingredients)
  = weighted_sum k ingredients.
Proof.
  induction ingredients as [|ing rest IH]; simpl; [done|].
  rewrite filter_cons. case_decide as Hs; simpl; rewrite IH; [done|].
  unfold profile. destruct (nutrition ing !! k) eqn:E.
  - destruct Hs. by eexists.
  - simpl. ring.
Qed.

Lemma total_mass_cons ing rest :
  total_mass (ing :: rest) = grams ing + total_mass rest.
Proof. reflexivity. Qed.

Lemma weighted_sum_cons k ing rest :
  weighted_sum k (ing :: rest)
  = grams ing / #100 * profile ing k + weighted_sum k rest.
Proof. reflexivity. Qed.

Lemma total_mass_scaled c ingredients :
  total_mass (scaleWeight c <$> ingredients) = c * total_mass ingredients.
Proof.
  induction ingredients as [|ing rest IH].
  - simpl. ring.
  - rewrite fmap_cons, !total_mass_cons, IH.
    unfold grams, scaleWeight. simpl.
    destruct (weight_g ing); simpl; ring.
Qed.

Lemma weighted_sum_scaled c k ingredients :
  weighted_sum k (scaleWeight c <$> ingredients)
  = c * weighted_sum k ingredients.
Proof.
  induction ingredients as [|ing rest IH].
  - simpl. ring.
  - rewrite fmap_cons, !weighted_sum_cons, IH.
    unfold grams, profile, scaleWeight. simpl.
    destruct (weight_g ing); simpl; field; apply lit_100_nonzero.
Qed.

(** * The aggregator *)

(** C1.  For a non-empty list of ingredients that all have a positive gram
    weight, [combineIngredients] returns a profile in which every recognized
    key [k] holds [(Σ_i grams_i/100 * profile_i[k]) * (100 / total_mass)],
    [total_mass] being the sum of the gram weights. *)
Theorem combineIngredients_weighted_mean ingredients :
  ingredients ≠ [] →
  Forall (λ ing, ∃ g, weight_g ing = Some g ∧ 0 < g) ingredients →
  ∃ combined,
    combineIngredients ingredients = Some combined ∧
    ∀ k, k ∈ combined_keys →
         combined !! k = Some (weighted_sum k ingredients
                               * (#100 / total_mass ingredients)).
Proof.
  intros Hne Hpos.
  destruct (combineIngredients_Some ingredients) as (combined & Hc & Hk).
  { apply not_eq_sym, Qclt_not_eq. by apply total_mass_positive. }
  exists combined. split; [done|]. intros k Hin.
  by rewrite Hk, decide_True.
Qed.

(** The worked example of C1: A = 200 g with 100 kcal and 10 g protein,
    B = 100 g with 50 kcal and no protein, combine to 250/3 kcal and 20/3 g
    protein per 100 g. *)
Lemma combineIngredients_two_ingredients :
  ∃ combined,
    combineIngredients [ingredientA; ingredientB] = Some combined ∧
    combined !! "calories"%string = Some (#250 / #3) ∧
    combined !! "protein_g"%string = Some (#20 / #3).
Proof.
  destruct (combineIngredients_weighted_mean [ingredientA; ingredientB])
    as (combined & Hc & Hk).
  - discriminate.
  - repeat constructor; eexists; (split; [reflexivity|reflexivity]).
  - exists combined. split; [exact Hc|].
    split; (rewrite Hk; [qc_eval|key_eval]).
Defined.

(** C4.  The empty ingredient list, and any list whose gram weights sum to
    0, aggregate to [null]. *)
Theorem combineIngredients_null ingredients :
  ingredients = [] ∨ total_mass ingredients = 0 →
  combineIngredients ingredients = None.
Proof.
  intros [->|Hzero]; by apply combineIngredients_None.
Qed.

Lemma combineIngredients_null_cases :
  combineIngredients [] = None ∧
  combineIngredients
    [sample 1 "in" (Some #100) (Some high) ∅;
     sample 2 "out" (Some (- #100)) (Some high) ∅] = None.
Proof.
  split.
  - apply combineIngredients_null. left. reflexivity.
  - apply combineIngredients_null. right. qc_eval.
Defined.

(** C2, as the aggregator has it.  A key that an ingredient does not carry
    adds nothing to the sum of that key: the entry of a recognized key is
    the weighted sum over the ingredients that do carry it, rescaled by the
    whole mass.  No record is kept of who supplied what: the entry is always
    a number, and it is 0 for a key that no ingredient supplied. *)
Theorem combineIngredients_absent_key ingredients k :
  total_mass ingredients ≠ 0 →
  k ∈ combined_keys →
  ∃ combined v,
    combineIngredients ingredients = Some combined ∧
    combined !! k = Some v ∧
    v = weighted_sum k
          (filter (λ ing, is_Some (nutrition ing !! k)) ingredients)
        * (#100 / total_mass ingredients) ∧
    (supplied k ingredients = false → v = 0).
Proof.
  intros Hmass Hin.
  destruct (combineIngredients_Some ingredients Hmass) as (combined & Hc & Hk).
  exists combined. eexists. split; [done|].
  split; [by rewrite Hk, decide_True|].
  split; [by rewrite weighted_sum_suppliers|].
  intros Hnone. rewrite (weighted_sum_unsupplied _ _ Hnone). ring.
Qed.

Lemma combineIngredients_absent_key_cases :
  ∃ combined v,
    combineIngredients [ingredientA; unlabelled] = Some combined ∧
    combined !! "calories"%string = Some v ∧
    v = #200 / #3.
Proof.
  destruct (combineIngredients_absent_key [ingredientA; unlabelled] "calories")
    as (combined & v & Hc & Hv & Hsum & _).
  - intros H. by apply (f_equal this) in H.
  - key_eval.
  - exists combined, v. split; [exact Hc|]. split; [exact Hv|].
    rewrite Hsum. qc_eval.
Defined.

(** C2 as stated fails: for a food record without nutrients no ingredient
    supplies [calories], yet the combined profile holds the number 0 for it
    and not an unknown. *)
Lemma combineIngredients_unknown_is_zero :
  supplied "calories" [unlabelled] = false ∧
  ∃ combined,
    combineIngredients [unlabelled] = Some combined ∧
    combined !! "calories"%string = Some 0 ∧
    combined !! "calories"%string ≠ None.
Proof.
  split; [reflexivity|].
  destruct (combineIngredients_Some [unlabelled]) as (combined & Hc & Hk).
  { intros H. by apply (f_equal this) in H. }
  exists combined. split; [exact Hc|].
  assert (combined !! "calories"%string = Some 0) as Hzero.
  { rewrite Hk, decide_True; [qc_eval|key_eval]. }
  split; [exact Hzero|]. by rewrite Hzero.
Qed.

(** C10.  In exact arithmetic, multiplying every gram weight by the same
    [c > 0] does not change what [combineIngredients] returns, the [null]
    of a zero total included.  (On the doubles the code computes with, the
    last digits of the result can change:
    [combineIngredients_scaling_rounds].) *)
Theorem combineIngredients_scale_invariant c ingredients :
  0 < c →
  combineIngredients (scaleWeight c <$> ingredients)
  = combineIngredients ingredients.
Proof.
  intros Hc. assert (c ≠ 0) as Hc0 by (apply not_eq_sym; by apply Qclt_not_eq).
  destruct (decide (total_mass ingredients = 0)) as [Hzero|Hmass].
  - rewrite (combineIngredients_None ingredients Hzero).
    apply combineIngredients_None.
    rewrite total_mass_scaled, Hzero. ring.
  - assert (total_mass (scaleWeight c <$> ingredients) ≠ 0) as Hmass'.
    { rewrite total_mass_scaled. intros [?|?]%Qcmult_integral; done. }
    destruct (combineIngredients_Some _ Hmass) as (m & -> & Hm).
    destruct (combineIngredients_Some _ Hmass') as (m' & -> & Hm').
    f_equal. apply map_eq. intros k. rewrite Hm, Hm'.
    case_decide; [|done]. f_equal.
    rewrite total_mass_scaled, weighted_sum_scaled. by field.
Qed.

Lemma combineIngredients_scale_invariant_cases :
  combineIngredients (scaleWeight #3 <$> [ingredientA; ingredientB])
  = combineIngredients [ingredientA; ingredientB].
Proof.
  apply combineIngredients_scale_invariant. reflexivity.
Defined.

(** * RecipeBuilder: the guard of the aggregation *)

Lemma forallb_converted_false ingredients :
  Exists (λ ing, converted ing = false) ingredients →
  forallb converted ingredients = false.
Proof.
  induction 1 as [ing rest Hing|ing rest _ IH]; simpl.
  - by rewrite Hing.
  - rewrite IH. apply andb_false_r.
Qed.

Lemma unusable_not_converted ing : unusable ing → converted ing = false.
Proof.
  unfold converted, Num.gtb0. intros [->|(g & -> & Hle)]; [done|].
  apply bool_decide_eq_false. by apply Qcle_not_lt.
Qed.

Lemma combinedNutrition_unconverted ingredients :
  Exists (λ ing, converted ing = false) ingredients →
  combinedNutrition ingredients = None.
Proof.
  intros Hex. unfold combinedNutrition.
  rewrite forallb_converted_false by done. simpl.
  by rewrite orb_true_r.
Qed.

(** When the guard lets the list through, the memo is the aggregate. *)
Lemma combinedNutrition_converted ingredients :
  ingredients ≠ [] →
  forallb converted ingredients = true →
  combinedNutrition ingredients = combineIngredients ingredients.
Proof.
  intros Hne Hall. unfold combinedNutrition. rewrite Hall.
  rewrite bool_decide_eq_false_2; [done|].
  by destruct ingredients.
Qed.

(** The guard of the memo.  If some ingredient has a [null] or non-positive
    gram weight, the [combinedNutrition] memo is [null]: [combineIngredients]
    is not run on the list and no profile is produced from the remaining
    ingredients.  A row that a handler has just marked for conversion holds
    [weight_g = null] ([markUnit_pending], [markQuantity_pending]) and
    blocks the aggregation until a reply is stored in it; the memo does not
    look at [convertingIds]. *)
Lemma combinedNutrition_unusable ingredients :
  Exists unusable ingredients → combinedNutrition ingredients = None.
Proof.
  intros Hex. apply combinedNutrition_unconverted.
  eapply Exists_impl; [|exact Hex]. apply unusable_not_converted.
Qed.

Lemma combinedNutrition_unusable_cases :
  combinedNutrition [ingredientA; pendingCup] = None ∧
  combinedNutrition
    [ingredientA; sample 7 "tare" (Some (- #50)) (Some high) ∅] = None ∧
  combinedNutrition [ingredientA; sample 8 "none" (Some 0) (Some high) ∅]
  = None.
Proof.
  split; [|split]; apply combinedNutrition_unusable.
  - apply Exists_cons_tl, Exists_cons_hd. left. reflexivity.
  - apply Exists_cons_tl, Exists_cons_hd. right. eexists.
    split; [reflexivity|]. discriminate.
  - apply Exists_cons_tl, Exists_cons_hd. right. eexists.
    split; [reflexivity|]. discriminate.
Defined.


(** The rows touched by a change to a unit other than ['g'], or by a change
    of quantity under such a unit, wait for their conversion with
    [weight_g = null]. *)
Lemma markUnit_pending id unit rows :
  unit ≠ "g"%string → id ∈ ing_id <$> rows →
  combinedNutrition (markUnit id unit rows) = None.
Proof.
  intros Hunit (ing & -> & Hin)%list_elem_of_fmap.
  apply combinedNutrition_unconverted, Exists_exists.
  exists (spread ing (quantity ing) unit None None (conversionNote ing)).
  split; [|done]. unfold markUnit. apply list_elem_of_In, list_elem_of_fmap.
  exists ing. split; [|done].
  rewrite decide_False by (intros H; by apply H).
  by rewrite decide_False.
Qed.

Lemma markQuantity_pending id parsedQuantity rows :
  (∃ ing, ing ∈ rows ∧ ing_id ing = id ∧ ing_unit ing ≠ "g"%string) →
  combinedNutrition (markQuantity id parsedQuantity rows) = None.
Proof.
  intros (ing & Hin & <- & Hunit).
  apply combinedNutrition_unconverted, Exists_exists.
  exists (spread ing parsedQuantity (ing_unit ing) None None
            (conversionNote ing)).
  split; [|done]. unfold markQuantity.
  apply list_elem_of_In, list_elem_of_fmap.
  exists ing. split; [|done].
  rewrite decide_False by (intros H; by apply H).
  by rewrite decide_False.
Qed.

(** * RecipeBuilder: unit conversion *)

(** The two exits of the lookup, as [convertIngredient] sees them. *)
Lemma convertIngredient_lookup backend ingredient s :
  ing_unit ingredient ≠ "g"%string →
  convertIngredient backend ingredient s =
    ( Normal match backend (requestOf ingredient) with
             | ConvertSuccess result =>
                 mkConversion (res_grams result) (res_confidence result)
                   (res_note result)
             | _ => estimate ingredient
             end,
      mkBuilder (ingredients s)
        ((convertingIds s ∪ {[ing_id ingredient]}) ∖ {[ing_id ingredient]})
        (sent s ++ [requestOf ingredient]) ).
Proof.
  intros Hunit. unfold convertIngredient. rewrite decide_False by done.
  unfold mbind, Eff_bind, bind, try_finally, try_catch,
    convertIngredientToGrams, setConvertingIds, post, modify, throw, ret.
  simpl. fold (requestOf ingredient).
  by destruct (backend (requestOf ingredient)).
Qed.

Lemma convertIngredient_grams backend ingredient s :
  ing_unit ingredient = "g"%string →
  convertIngredient backend ingredient s =
    (Normal (mkConversion (quantity ingredient) high None), s).
Proof.
  intros Hunit. unfold convertIngredient. by rewrite decide_True.
Qed.

(** C5.  [convertIngredient] completes normally with a gram value for every
    ingredient, backend and state; it never throws.  When the lookup fails
    or errors for a unit other than ['g'], the result is the estimate:
    [grams = quantity * 100], confidence [low] and the warning note. *)
Theorem convertIngredient_degrades backend ingredient s :
  ∃ out s',
    convertIngredient backend ingredient s = (Normal out, s') ∧
    (ing_unit ingredient ≠ "g"%string →
     lookupFails backend ingredient →
     out = estimate ingredient ∧
     conv_grams out = quantity ingredient * #100 ∧
     conv_confidence out = low ∧
     is_Some (conv_note out)).
Proof.
  destruct (decide (ing_unit ingredient = "g"%string)) as [Hg|Hunit].
  - rewrite convertIngredient_grams by done.
    do 2 eexists. split; [done|]. intros Hne. by destruct Hne.
  - rewrite convertIngredient_lookup by done.
    do 2 eexists. split; [done|]. intros _ Hfails.
    destruct (backend (requestOf ingredient)) as [| |result] eqn:E;
      [by eauto..|].
    by destruct (Hfails result).
Qed.

Lemma convertIngredient_degrades_cases :
  (∃ s', convertIngredient offline pendingCup (emptyBuilder [pendingCup])
         = (Normal (mkConversion #200 low
                      (Some "Conversion failed. Using rough estimate."%string)),
            s')) ∧
  (∃ s', convertIngredient noMatch pendingCup (emptyBuilder [pendingCup])
         = (Normal (mkConversion #200 low
                      (Some "Conversion failed. Using rough estimate."%string)),
            s')).
Proof.
  split.
  - destruct (convertIngredient_degrades offline pendingCup
                (emptyBuilder [pendingCup])) as (out & s' & Hrun & Hest).
    destruct Hest as (-> & _); [discriminate|intros result; discriminate|].
    exists s'. rewrite Hrun. do 2 f_equal. unfold estimate. f_equal. qc_eval.
  - destruct (convertIngredient_degrades noMatch pendingCup
                (emptyBuilder [pendingCup])) as (out & s' & Hrun & Hest).
    destruct Hest as (-> & _); [discriminate|intros result; discriminate|].
    exists s'. rewrite Hrun. do 2 f_equal. unfold estimate. f_equal. qc_eval.
Defined.

(** A lookup that succeeds is passed through. *)
Lemma convertIngredient_passes_result :
  (convertIngredient densityTable pendingCup (emptyBuilder [pendingCup])).1
  = Normal (mkConversion (#2 * #125) medium
              (Some "approximate density"%string)).
Proof. by rewrite convertIngredient_lookup. Qed.

(** The failed conversion reaches the row: weight, tier and note are
    stored, and the note is what the table cell shows as its title. *)
Lemma handleUnitChange_failed_lookup :
  (handleUnitChange offline 1 "cup" (emptyBuilder [ingredientA]))
  = (Normal (),
     mkBuilder
       [spread ingredientA #200 "cup" (Some (#200 * #100)) (Some low)
          (Some "Conversion failed. Using rough estimate."%string)]
       ((∅ ∪ {[1%Z]}) ∖ {[1%Z]})
       [mkConvertRequest "A" #200 "cup"]).
Proof. reflexivity. Qed.

(** * RecipeBuilder: grams are direct *)

Lemma markUnit_grams id rows :
  markUnit id "g" rows
  = (λ ing, if decide (ing_id ing = id) then directRow ing else ing) <$> rows.
Proof.
  unfold markUnit. apply list_fmap_ext. intros _ ing _.
  destruct (decide (ing_id ing = id)) as [Heq|Hne].
  - rewrite decide_False by (intros H; by apply H). by rewrite decide_True.
  - by rewrite decide_True.
Qed.

(** C6.  For every ingredient name and quantity, backend and state, an
    ingredient whose unit is ['g'] converts to its quantity with confidence
    [high] and no note, and the state is untouched: nothing is posted to the
    backend.  [handleUnitChange] to ['g'] rewrites the rows with the given id
    to that direct resolution whatever their weight, confidence and note
    were, and does not call the converter. *)
Theorem grams_resolve_directly backend id name quantity weight tier note facts
    s :
  convertIngredient backend
      (mkIngredient id name quantity "g" weight tier note facts) s
    = (Normal (mkConversion quantity high None), s) ∧
  handleUnitChange backend id "g" s
    = (Normal (),
       mkBuilder
         ((λ ing, if decide (ing_id ing = id) then directRow ing else ing)
          <$> ingredients s)
         (convertingIds s) (sent s)).
Proof.
  split; [by apply convertIngredient_grams|].
  unfold handleUnitChange, mbind, Eff_bind, bind, gets, setIngredients, modify.
  simpl. rewrite markUnit_grams.
  by destruct (findById id (ingredients s)).
Qed.

Lemma grams_resolve_directly_cases :
  handleUnitChange offline 4 "g" (mkBuilder [ingredientA; pendingCup] {[4%Z]} [])
  = (Normal (),
     mkBuilder
       [ingredientA;
        mkIngredient 4 "flour" #2 "g" (Some #2) (Some high) None
          (<["calories" := #364]> ∅)]
       {[4%Z]} []).
Proof.
  destruct (grams_resolve_directly offline 4 "" 0 None None None ∅
              (mkBuilder [ingredientA; pendingCup] {[4%Z]} [])) as [_ ->].
  reflexivity.
Defined.

(** A result that comes back after the unit was set to ['g'] is stored all
    the same: the last [setIngredients] of the earlier [handleUnitChange]
    finds the row by id and does not look at its unit.  (Handlers are
    otherwise modelled as running one after the other.) *)
Lemma late_result_replaces_direct_weight :
  storeConversion 4 (mkConversion #250 medium None)
    (markUnit 4 "g" (markUnit 4 "cup" [pendingCup]))
  = [mkIngredient 4 "flour" #2 "g" (Some #250) (Some medium) None
       (<["calories" := #364]> ∅)].
Proof. reflexivity. Qed.

(** * RecipeBuilder: rows with a tier have a weight *)

Lemma convertIngredient_rows backend ingredient s :
  ∃ out s',
    convertIngredient backend ingredient s = (Normal out, s') ∧
    ingredients s' = ingredients s.
Proof.
  destruct (decide (ing_unit ingredient = "g"%string)) as [Hg|Hunit].
  - rewrite convertIngredient_grams by done. by do 2 eexists.
  - rewrite convertIngredient_lookup by done. by do 2 eexists.
Qed.

Lemma markUnit_tierHasWeight id unit rows :
  Forall tierHasWeight rows → Forall tierHasWeight (markUnit id unit rows).
Proof.
  intros Hrows. unfold markUnit. apply Forall_fmap.
  eapply Forall_impl; [|exact Hrows]. intros ing Hing. simpl.
  repeat case_decide; [done|by eexists|by intros [? ?]].
Qed.

Lemma markQuantity_tierHasWeight id parsedQuantity rows :
  Forall tierHasWeight rows →
  Forall tierHasWeight (markQuantity id parsedQuantity rows).
Proof.
  intros Hrows. unfold markQuantity. apply Forall_fmap.
  eapply Forall_impl; [|exact Hrows]. intros ing Hing. simpl.
  repeat case_decide; [done|by eexists|by intros [? ?]].
Qed.

Lemma storeConversion_tierHasWeight id result rows :
  Forall tierHasWeight rows →
  Forall tierHasWeight (storeConversion id result rows).
Proof.
  intros Hrows. unfold storeConversion. apply Forall_fmap.
  eapply Forall_impl; [|exact Hrows]. intros ing Hing. simpl.
  case_decide; [by eexists|done].
Qed.

Lemma handleUnitChange_tierHasWeight backend id unit s :
  Forall tierHasWeight (ingredients s) →
  ∃ s', handleUnitChange backend id unit s = (Normal (), s') ∧
        Forall tierHasWeight (ingredients s').
Proof.
  intros Hrows. unfold handleUnitChange, mbind, Eff_bind, bind, gets,
    setIngredients, modify. simpl.
  destruct (findById id (ingredients s)) as [ingredient|];
    [|eexists; split; [done|by apply markUnit_tierHasWeight]].
  case_decide; [|eexists; split; [done|by apply markUnit_tierHasWeight]].
  match goal with
  | |- context [convertIngredient backend ?i ?st] =>
      destruct (convertIngredient_rows backend i st) as (out & s' & -> & Hs')
  end.
  eexists; split; [done|]. simpl. rewrite Hs'. simpl.
  by apply storeConversion_tierHasWeight, markUnit_tierHasWeight.
Qed.

Lemma handleQuantityChange_tierHasWeight backend id parsed s :
  Forall tierHasWeight (ingredients s) →
  ∃ s', handleQuantityChange backend id parsed s = (Normal (), s') ∧
        Forall tierHasWeight (ingredients s').
Proof.
  intros Hrows. unfold handleQuantityChange, mbind, Eff_bind, bind, gets,
    setIngredients, modify. simpl.
  destruct (findById id (ingredients s)) as [ingredient|];
    [|eexists; split; [done|by apply markQuantity_tierHasWeight]].
  case_decide; [|eexists; split; [done|by apply markQuantity_tierHasWeight]].
  match goal with
  | |- context [convertIngredient backend ?i ?st] =>
      destruct (convertIngredient_rows backend i st) as (out & s' & -> & Hs')
  end.
  eexists; split; [done|]. simpl. rewrite Hs'. simpl.
  by apply storeConversion_tierHasWeight, markQuantity_tierHasWeight.
Qed.

Lemma handleAddIngredient_tierHasWeight now selected s :
  Forall tierHasWeight (ingredients s) →
  Forall tierHasWeight (ingredients (handleAddIngredient now selected s).2).
Proof.
  intros Hrows. simpl. apply Forall_app. split; [done|].
  apply Forall_singleton. intros _. by eexists.
Qed.

Lemma handleRemoveIngredient_tierHasWeight id s :
  Forall tierHasWeight (ingredients s) →
  Forall tierHasWeight (ingredients (handleRemoveIngredient id s).2).
Proof.
  intros Hrows. simpl. apply Forall_forall.
  intros ing [_ Hin]%list_elem_of_In%list_elem_of_filter.
  by eapply (proj1 (Forall_forall _ _) Hrows), list_elem_of_In.
Qed.

Lemma handleWeightChange_tierHasWeight id parsed s :
  Forall tierHasWeight (ingredients s) →
  Forall tierHasWeight (ingredients (handleWeightChange id parsed s).2).
Proof.
  intros Hrows. simpl. apply Forall_fmap.
  eapply Forall_impl; [|exact Hrows]. intros ing Hing. simpl.
  case_decide; [intros _; by eexists|done].
Qed.

(** So when every row shows a tier, no conversion is incomplete. *)
Lemma tiered_rows_complete rows :
  Forall tierHasWeight rows →
  Forall (λ ing, is_Some (confidence ing)) rows →
  hasIncompleteConversions rows = false.
Proof.
  induction 1 as [|ing rest Hing _ IH]; intros Htier; [done|].
  apply Forall_cons_iff in Htier as [Hc Hrest].
  unfold hasIncompleteConversions in *. simpl. rewrite IH by done.
  destruct (Hing Hc) as [w ->]. done.
Qed.

(** * RecipeBuilder: the confidence banner *)

Lemma worstConfidence_cons ing rest :
  worstConfidence (ing :: rest)
  = match confidence ing with
    | Some c => worse c (worstConfidence rest)
    | None => worstConfidence rest
    end.
Proof. unfold worstConfidence. simpl. by destruct (confidence ing). Qed.

(** The two flags decide the worst tier. *)
Lemma worstConfidence_flags ingredients :
  worstConfidence ingredients
  = if hasLowConfidence ingredients then low
    else if hasMediumConfidence ingredients then medium
    else high.
Proof.
  induction ingredients as [|ing rest IH]; [done|].
  rewrite worstConfidence_cons, IH.
  unfold hasLowConfidence, hasMediumConfidence. simpl.
  destruct (confidence ing) as [[]|]; simpl;
    by repeat (destruct (existsb _ rest); simpl).
Qed.

Lemma worstConfidence_lower_bound ingredients ing c :
  ing ∈ ingredients → confidence ing = Some c →
  (rank (worstConfidence ingredients) ≤ rank c)%nat.
Proof.
  induction 1 as [ing rest|ing other rest _ IH]; intros Hc;
    rewrite worstConfidence_cons.
  - rewrite Hc. unfold worse. case_bool_decide; lia.
  - specialize (IH Hc). destruct (confidence other); [|done].
    unfold worse. case_bool_decide; lia.
Qed.

(** C7.  Once every row has its weight, the banner announces the worst
    confidence among the ingredients and never a better one than any of
    them has: [warning-low] if some ingredient is [low], otherwise
    [warning-medium] if some ingredient is [medium], otherwise no banner. *)
Theorem confidenceWarning_worst ingredients :
  hasIncompleteConversions ingredients = false →
  bannerTier (confidenceWarning ingredients) = worstConfidence ingredients ∧
  (∀ ing c, ing ∈ ingredients → confidence ing = Some c →
            (rank (bannerTier (confidenceWarning ingredients)) ≤ rank c)%nat) ∧
  (hasLowConfidence ingredients = true →
   confidenceWarning ingredients = WarningLow) ∧
  (hasLowConfidence ingredients = false →
   hasMediumConfidence ingredients = true →
   confidenceWarning ingredients = WarningMedium).
Proof.
  intros Hdone.
  assert (bannerTier (confidenceWarning ingredients)
          = worstConfidence ingredients) as Htier.
  { rewrite worstConfidence_flags. unfold confidenceWarning, hasWarnings.
    rewrite Hdone.
    by destruct (hasLowConfidence ingredients),
                (hasMediumConfidence ingredients). }
  split; [done|]. split; [|split].
  - intros ing c Hin Hc. rewrite Htier.
    by eapply worstConfidence_lower_bound.
  - intros Hlow. unfold confidenceWarning, hasWarnings.
    by rewrite Hlow, Hdone.
  - intros Hlow Hmedium. unfold confidenceWarning, hasWarnings.
    by rewrite Hlow, Hmedium, Hdone.
Qed.

Lemma confidenceWarning_worst_cases :
  confidenceWarning [ingredientA; mediumCup; lowCup] = WarningLow ∧
  confidenceWarning [ingredientA; mediumCup] = WarningMedium ∧
  bannerTier (confidenceWarning [ingredientA; ingredientB]) = high.
Proof.
  split; [|split].
  - by apply (confidenceWarning_worst [ingredientA; mediumCup; lowCup]).
  - by apply (confidenceWarning_worst [ingredientA; mediumCup]).
  - by apply (confidenceWarning_worst [ingredientA; ingredientB]).
Defined.

(** While a conversion is outstanding the banner is withheld, whatever the
    tiers of the other rows. *)
Lemma confidenceWarning_withheld :
  confidenceWarning [lowCup; pendingCup] = NoBanner.
Proof. reflexivity. Qed.

(** * Yield weight *)

Lemma totalWeight_total_mass ingredients :
  totalWeight ingredients = total_mass ingredients.
Proof. apply sumWeights_total_mass. Qed.

Lemma initialYieldWeight_default ingredients :
  initialYieldWeight (Some (undeclaredYield ingredients))
  = total_mass ingredients.
Proof.
  unfold initialYieldWeight, or_number, undeclaredYield. simpl.
  by destruct (decide (total_mass ingredients = 0)) as [->|Hne].
Qed.

(** A declared yield weight takes precedence; without a result the state
    starts at 0. *)
Lemma initialYieldWeight_declared :
  initialYieldWeight (Some (mkNutritionResult (Some #250) (Some #300))) = #250
  ∧ initialYieldWeight None = 0.
Proof. split; reflexivity. Qed.

Lemma normalize_same_weight aggregate weight :
  0 < weight → normalize aggregate weight weight = Valid aggregate.
Proof.
  intros Hpos. unfold normalize, Num.leb0.
  rewrite bool_decide_eq_false_2 by by apply Qclt_not_le.
  f_equal. apply map_eq. intros k. rewrite lookup_fmap.
  destruct (aggregate !! k) as [v|]; simpl; [|done].
  f_equal. field. apply not_eq_sym. by apply Qclt_not_eq.
Qed.

(** C8.  For ingredients of total raw mass above 0, normalising their
    aggregate with a yield weight equal to the raw weight returns the
    aggregate unchanged, the scale factor being 1; and the yield weight a
    review starts from when none was declared is the total raw weight, so
    that the normalisation it asks for changes nothing either. *)
Theorem normalize_at_raw_weight ingredients aggregate :
  0 < total_mass ingredients →
  combineIngredients ingredients = Some aggregate →
  total_mass ingredients / total_mass ingredients = 1 ∧
  normalize aggregate (total_mass ingredients) (total_mass ingredients)
    = Valid aggregate ∧
  initialYieldWeight (Some (undeclaredYield ingredients))
    = total_mass ingredients ∧
  normalize aggregate (total_mass ingredients)
      (initialYieldWeight (Some (undeclaredYield ingredients)))
    = Valid aggregate.
Proof.
  intros Hpos _. split; [|split; [|split]].
  - field. apply not_eq_sym. by apply Qclt_not_eq.
  - by apply normalize_same_weight.
  - apply initialYieldWeight_default.
  - rewrite initialYieldWeight_default. by apply normalize_same_weight.
Qed.

Lemma normalize_at_raw_weight_cases :
  ∃ aggregate,
    combineIngredients [ingredientA; ingredientB] = Some aggregate ∧
    normalize aggregate #300 #300 = Valid aggregate.
Proof.
  destruct (combineIngredients_Some [ingredientA; ingredientB])
    as (aggregate & Hc & _); [intros H; by apply (f_equal this) in H|].
  exists aggregate. split; [exact Hc|].
  destruct (normalize_at_raw_weight [ingredientA; ingredientB] aggregate)
    as (_ & Hsame & _); [reflexivity|exact Hc|].
  replace #300 with (total_mass [ingredientA; ingredientB]) by qc_eval.
  exact Hsame.
Defined.

(** * ServingSizeForm: validation *)

Section Submit.

Context {P : Type}.
Variable backend : Nutrition → ServingConfig → CalculateReply P.
Variable nutrition : Nutrition.

Lemma handleSubmit_bad_size form :
  servingSizeG P form ≤ 0 →
  handleSubmit P backend nutrition form
  = (Normal (),
     withError (Some "Serving size must be greater than 0"%string) form).
Proof.
  intros Hle. unfold handleSubmit, mbind, Eff_bind, bind, gets. simpl.
  unfold Num.leb0. by rewrite bool_decide_eq_true_2.
Qed.

Lemma handleSubmit_bad_servings form :
  0 < servingSizeG P form →
  servingsPerContainer P form ≤ 0 →
  handleSubmit P backend nutrition form
  = (Normal (),
     withError
       (Some "Servings per container must be greater than 0"%string) form).
Proof.
  intros Hpos Hle. unfold handleSubmit, mbind, Eff_bind, bind, gets. simpl.
  unfold Num.leb0.
  rewrite bool_decide_eq_false_2 by by apply Qclt_not_le.
  by rewrite bool_decide_eq_true_2.
Qed.

(** Whatever the form holds, a request reaches the calculator only past
    both checks. *)
Lemma handleSubmit_calls form :
  (handleSubmit P backend nutrition form).1 = Normal () ∧
  (calculated P (handleSubmit P backend nutrition form).2
     = calculated P form ∨
   0 < servingSizeG P form ∧ 0 < servingsPerContainer P form ∧
   calculated P (handleSubmit P backend nutrition form).2
     = calculated P form
       ++ [(nutrition,
            mkServingConfig (servingSizeG P form) (servingDescription P form)
              (servingsPerContainer P form))]).
Proof.
  destruct (decide (servingSizeG P form ≤ 0)) as [Hsize|Hsize].
  { rewrite handleSubmit_bad_size by done. split; [done|by left]. }
  apply Qcnot_le_lt in Hsize.
  destruct (decide (servingsPerContainer P form ≤ 0)) as [Hper|Hper].
  { rewrite handleSubmit_bad_servings by done. split; [done|by left]. }
  apply Qcnot_le_lt in Hper.
  unfold handleSubmit, mbind, Eff_bind, bind, gets. simpl.
  unfold Num.leb0.
  rewrite !bool_decide_eq_false_2 by by apply Qclt_not_le.
  case_bool_decide; simpl; [split; [done|by left]|].
  unfold try_finally, try_catch, calculatePerServing, mbind, Eff_bind, bind,
    modify, throw, ret. simpl.
  destruct (backend _ _); simpl; (split; [done|right; by repeat split]).
Qed.

End Submit.

(** C9.  A submit with a non-positive serving size or a non-positive number
    of servings per container ends with a validation message in [error]
    and nothing else changed: no request is posted to the calculator and
    [onConfirm] is not called.  Conversely, whenever a submit does post a
    request, both values are positive, and they are the ones sent. *)
Theorem handleSubmit_validates {P : Type}
    (backend : Nutrition → ServingConfig → CalculateReply P)
    (nutrition : Nutrition) (form : Form P) :
  (servingSizeG P form ≤ 0 ∨ servingsPerContainer P form ≤ 0 →
   ∃ message,
     handleSubmit P backend nutrition form
     = (Normal (), withError (Some message) form) ∧
     (message = "Serving size must be greater than 0"%string ∨
      message = "Servings per container must be greater than 0"%string)) ∧
  (∀ request,
     request ∈ calculated P (handleSubmit P backend nutrition form).2 →
     request ∉ calculated P form →
     0 < serving_size_g request.2 ∧ 0 < servings_per_container request.2 ∧
     serving_size_g request.2 = servingSizeG P form ∧
     servings_per_container request.2 = servingsPerContainer P form).
Proof.
  split.
  - intros Hbad.
    destruct (decide (servingSizeG P form ≤ 0)) as [Hsize|Hsize].
    { eexists. split; [by apply handleSubmit_bad_size|by left]. }
    destruct Hbad as [?|Hper]; [done|].
    eexists. split; [|by right].
    apply handleSubmit_bad_servings; [|done].
    by apply Qcnot_le_lt.
  - intros request Hin Hnew.
    destruct (handleSubmit_calls backend nutrition form)
      as [_ [Hsame|(Hsize & Hper & Hsent)]].
    + by rewrite Hsame in Hin.
    + rewrite Hsent in Hin. apply elem_of_app in Hin as [?|Hin]; [done|].
      apply list_elem_of_singleton in Hin as ->. by simpl.
Qed.

Lemma handleSubmit_validates_cases :
  (∃ message,
     handleSubmit Nutrition echoCalculator ∅ clearedForm
     = (Normal (), withError (Some message) clearedForm)) ∧
  (∃ message,
     handleSubmit Nutrition echoCalculator ∅ negativeServingsForm
     = (Normal (), withError (Some message) negativeServingsForm)).
Proof.
  split.
  - destruct (handleSubmit_validates echoCalculator ∅ clearedForm)
      as [Hreject _].
    destruct Hreject as (message & Hrun & _); [left; discriminate|].
    exists message. exact Hrun.
  - destruct (handleSubmit_validates echoCalculator ∅ negativeServingsForm)
      as [Hreject _].
    destruct Hreject as (message & Hrun & _); [right; discriminate|].
    exists message. exact Hrun.
Defined.

(** The two rejections, run. *)
Lemma handleSubmit_rejections :
  handleSubmit Nutrition echoCalculator ∅ clearedForm
    = (Normal (),
       withError (Some "Serving size must be greater than 0"%string)
         clearedForm) ∧
  handleSubmit Nutrition echoCalculator ∅ negativeServingsForm
    = (Normal (),
       withError
         (Some "Servings per container must be greater than 0"%string)
         negativeServingsForm).
Proof. split; reflexivity. Qed.

(** A valid form goes through: one request, one [onConfirm], no error. *)
Lemma handleSubmit_accepts :
  handleSubmit Nutrition echoCalculator ∅ initialForm
  = (Normal (),
     mkForm Nutrition #30 "1 serving (30g)" 1 false None
       [(∅, mkServingConfig #30 "1 serving (30g)" 1)]
       [(mkServingConfig #30 "1 serving (30g)" 1, ∅)]).
Proof. reflexivity. Qed.

(** * More on the aggregator *)

Lemma combineIngredients_inv ingredients combined :
  combineIngredients ingredients = Some combined →
  total_mass ingredients ≠ 0 ∧
  ∀ k, combined !! k =
         if decide (k ∈ combined_keys)
         then Some (weighted_sum k ingredients
                    * (#100 / total_mass ingredients))
         else None.
Proof.
  intros Hc. destruct (decide (total_mass ingredients = 0)) as [Hzero|Hmass].
  - by rewrite combineIngredients_None in Hc.
  - destruct (combineIngredients_Some _ Hmass) as (m & Hm & Hk).
    rewrite Hm in Hc. injection Hc as <-. done.
Qed.

Lemma combineIngredients_ext ingredients ingredients' :
  total_mass ingredients = total_mass ingredients' →
  (∀ k, weighted_sum k ingredients = weighted_sum k ingredients') →
  combineIngredients ingredients = combineIngredients ingredients'.
Proof.
  intros Hmass Hsum.
  destruct (decide (total_mass ingredients = 0)) as [Hzero|Hne].
  - rewrite (combineIngredients_None ingredients Hzero).
    rewrite combineIngredients_None; [done|]. by rewrite <- Hmass.
  - destruct (combineIngredients_Some _ Hne) as (m & -> & Hm).
    rewrite Hmass in Hne.
    destruct (combineIngredients_Some _ Hne) as (m' & -> & Hm').
    f_equal. apply map_eq. intros k. by rewrite Hm, Hm', Hmass, Hsum.
Qed.

(** X1.  Whatever keys the food records carry, a combined profile has the
    fifteen recognized keys and no other. *)
Theorem combineIngredients_keys ingredients combined :
  combineIngredients ingredients = Some combined →
  ∀ k, is_Some (combined !! k) ↔ k ∈ combined_keys.
Proof.
  intros Hc k. destruct (combineIngredients_inv _ _ Hc) as [_ Hk].
  rewrite Hk.
  case_decide; split; first [done | by eexists | by intros [? ?]].
Qed.

Lemma combineIngredients_keys_cases :
  ∃ combined,
    combineIngredients [withCaffeine] = Some combined ∧
    combined !! "caffeine_mg"%string = None ∧
    is_Some (combined !! "iron_mg"%string).
Proof.
  destruct (combineIngredients_Some [withCaffeine]) as (combined & Hc & _);
    [intros H; by apply (f_equal this) in H|].
  exists combined. split; [exact Hc|].
  pose proof (combineIngredients_keys [withCaffeine] combined Hc) as Hkeys.
  split.
  - apply eq_None_not_Some. intros Hsome%Hkeys. revert Hsome.
    apply (bool_decide_unpack _). vm_compute. exact I.
  - apply Hkeys. key_eval.
Defined.

Lemma total_mass_Permutation ingredients ingredients' :
  ingredients ≡ₚ ingredients' →
  total_mass ingredients = total_mass ingredients'.
Proof.
  induction 1 as [|ing l l' _ IH|a b l|l l' l'' _ IH _ IH']; simpl.
  - done.
  - by rewrite IH.
  - ring.
  - by rewrite IH.
Qed.

Lemma weighted_sum_Permutation k ingredients ingredients' :
  ingredients ≡ₚ ingredients' →
  weighted_sum k ingredients = weighted_sum k ingredients'.
Proof.
  induction 1 as [|ing l l' _ IH|a b l|l l' l'' _ IH _ IH']; simpl.
  - done.
  - by rewrite IH.
  - ring.
  - by rewrite IH.
Qed.

(** X2.  The order of the rows does not matter to the aggregate. *)
Theorem combineIngredients_Permutation ingredients ingredients' :
  ingredients ≡ₚ ingredients' →
  combineIngredients ingredients = combineIngredients ingredients'.
Proof.
  intros Hperm. apply combineIngredients_ext.
  - by apply total_mass_Permutation.
  - intros k. by apply weighted_sum_Permutation.
Qed.

Lemma combineIngredients_Permutation_cases :
  combineIngredients [ingredientA; ingredientB; unlabelled]
  = combineIngredients [unlabelled; ingredientB; ingredientA].
Proof.
  apply combineIngredients_Permutation.
  exact (Permutation_rev [ingredientA; ingredientB; unlabelled]).
Defined.

(** X3.  In exact arithmetic, a recipe of one ingredient has that
    ingredient's own values per 100 g, whatever its weight, with 0 for the
    keys its record lacks.  (On the doubles the last digits can differ:
    [double_single_rounds].) *)
Theorem combineIngredients_single ing w :
  weight_g ing = Some w → w ≠ 0 →
  ∃ combined,
    combineIngredients [ing] = Some combined ∧
    ∀ k, k ∈ combined_keys → combined !! k = Some (profile ing k).
Proof.
  intros Hw Hne.
  assert (total_mass [ing] = w) as Hmass.
  { simpl. unfold grams. rewrite Hw. simpl. ring. }
  destruct (combineIngredients_Some [ing]) as (combined & Hc & Hk);
    [by rewrite Hmass|].
  exists combined. split; [done|]. intros k Hin.
  rewrite Hk, decide_True, Hmass by done. f_equal. simpl.
  unfold grams. rewrite Hw. simpl. field. split; [done|apply lit_100_nonzero].
Qed.

Lemma combineIngredients_single_cases :
  ∃ combined,
    combineIngredients [ingredientA] = Some combined ∧
    combined !! "protein_g"%string = Some #10 ∧
    combined !! "sodium_mg"%string = Some 0.
Proof.
  destruct (combineIngredients_single ingredientA #200) as (combined & Hc & Hk).
  - reflexivity.
  - intros H. by apply (f_equal this) in H.
  - exists combined. split; [exact Hc|].
    split; (rewrite Hk; [reflexivity|key_eval]).
Defined.

Lemma weighted_sum_upper k hi ingredients :
  Forall (λ ing, 0 ≤ grams ing ∧ profile ing k ≤ hi) ingredients →
  weighted_sum k ingredients ≤ total_mass ingredients / #100 * hi.
Proof.
  induction 1 as [|ing rest [Hg Hp] _ IH]; simpl.
  - replace (0 / #100 * hi) with 0 by (field; apply lit_100_nonzero). done.
  - replace ((grams ing + total_mass rest) / #100 * hi)
      with (grams ing / #100 * hi + total_mass rest / #100 * hi)
      by (field; apply lit_100_nonzero).
    apply Qcplus_le_compat; [|done].
    apply Qcmult_le_mono_nonneg_l; [|done].
    apply Qcmult_nonneg_nonneg; [done|]. by apply Qclt_le_weak, Qcinv_pos.
Qed.

Lemma weighted_sum_lower k lo ingredients :
  Forall (λ ing, 0 ≤ grams ing ∧ lo ≤ profile ing k) ingredients →
  total_mass ingredients / #100 * lo ≤ weighted_sum k ingredients.
Proof.
  induction 1 as [|ing rest [Hg Hp] _ IH]; simpl.
  - replace (0 / #100 * lo) with 0 by (field; apply lit_100_nonzero). done.
  - replace ((grams ing + total_mass rest) / #100 * lo)
      with (grams ing / #100 * lo + total_mass rest / #100 * lo)
      by (field; apply lit_100_nonzero).
    apply Qcplus_le_compat; [|done].
    apply Qcmult_le_mono_nonneg_l; [|done].
    apply Qcmult_nonneg_nonneg; [done|]. by apply Qclt_le_weak, Qcinv_pos.
Qed.

(** X4.  In exact arithmetic and with positive weights, the combined value
    of a key lies between the smallest and the largest value the
    ingredients have for it (a missing value counting as 0): mixing never
    leaves the range of the parts.  (On the doubles the result can leave
    the range in the last digit: [double_between_rounds].) *)
Theorem combineIngredients_between ingredients k lo hi :
  ingredients ≠ [] →
  Forall positiveWeight ingredients →
  Forall (λ ing, lo ≤ profile ing k ≤ hi) ingredients →
  k ∈ combined_keys →
  ∃ combined v,
    combineIngredients ingredients = Some combined ∧
    combined !! k = Some v ∧ lo ≤ v ≤ hi.
Proof.
  intros Hne Hpos Hrange Hin.
  pose proof (total_mass_positive _ Hne Hpos) as Hmass.
  destruct (combineIngredients_Some ingredients) as (combined & Hc & Hk);
    [apply not_eq_sym; by apply Qclt_not_eq|].
  exists combined. eexists. split; [done|].
  rewrite Hk, decide_True by done. split; [done|].
  assert (total_mass ingredients ≠ 0) as Hne0
    by (apply not_eq_sym; by apply Qclt_not_eq).
  assert (0 ≤ #100 / total_mass ingredients) as Hfactor.
  { apply Qcmult_nonneg_nonneg; [done|]. by apply Qclt_le_weak, Qcinv_pos. }
  split.
  - assert (total_mass ingredients / #100 * lo
              * (#100 / total_mass ingredients)
            ≤ weighted_sum k ingredients * (#100 / total_mass ingredients))
      as Hlow; [|by replace (total_mass ingredients / #100 * lo
                             * (#100 / total_mass ingredients)) with lo in Hlow
                   by (field; split; [done|apply lit_100_nonzero])].
    apply Qcmult_le_mono_nonneg_r; [done|]. apply weighted_sum_lower.
    apply Forall_forall. intros ing Hing.
    destruct (proj1 (Forall_forall _ _) Hpos ing Hing) as (g & Hg & Hgpos).
    destruct (proj1 (Forall_forall _ _) Hrange ing Hing) as [Hlo _].
    split; [|done]. unfold grams. rewrite Hg. by apply Qclt_le_weak.
  - assert (weighted_sum k ingredients * (#100 / total_mass ingredients)
            ≤ total_mass ingredients / #100 * hi
              * (#100 / total_mass ingredients))
      as Hup; [|by replace (total_mass ingredients / #100 * hi
                            * (#100 / total_mass ingredients)) with hi in Hup
                  by (field; split; [done|apply lit_100_nonzero])].
    apply Qcmult_le_mono_nonneg_r; [done|]. apply weighted_sum_upper.
    apply Forall_forall. intros ing Hing.
    destruct (proj1 (Forall_forall _ _) Hpos ing Hing) as (g & Hg & Hgpos).
    destruct (proj1 (Forall_forall _ _) Hrange ing Hing) as [_ Hhi].
    split; [|done]. unfold grams. rewrite Hg. by apply Qclt_le_weak.
Qed.

Lemma combineIngredients_between_cases :
  ∃ combined v,
    combineIngredients [ingredientA; ingredientB] = Some combined ∧
    combined !! "calories"%string = Some v ∧ #50 ≤ v ≤ #100.
Proof.
  apply (combineIngredients_between [ingredientA; ingredientB]).
  - discriminate.
  - repeat constructor; eexists; (split; [reflexivity|reflexivity]).
  - repeat constructor; discriminate.
  - key_eval.
Defined.

(** X5.  In exact arithmetic, two rows of the same food weigh in like one
    row of their joint weight.  (On the doubles the last digits can differ:
    [double_merge_rounds].) *)
Theorem combineIngredients_merge a b w1 w2 rest :
  weight_g a = Some w1 → weight_g b = Some w2 →
  nutrition a = nutrition b →
  combineIngredients (a :: b :: rest)
  = combineIngredients (withWeight (Some (w1 + w2)) a :: rest).
Proof.
  intros Ha Hb Hfacts. apply combineIngredients_ext.
  - rewrite !total_mass_cons. unfold grams, withWeight. simpl.
    rewrite Ha, Hb. simpl. ring.
  - intros k. rewrite !weighted_sum_cons.
    unfold grams, profile, withWeight. simpl.
    rewrite Ha, Hb, Hfacts. simpl. field. apply lit_100_nonzero.
Qed.

Lemma combineIngredients_merge_cases :
  combineIngredients
    [ingredientA; withWeight (Some #50) ingredientA; ingredientB]
  = combineIngredients [withWeight (Some (#200 + #50)) ingredientA; ingredientB].
Proof.
  by apply combineIngredients_merge.
Defined.

(** * More on RecipeBuilder *)

Lemma findById_Some id rows ing :
  findById id rows = Some ing → ing ∈ rows ∧ ing_id ing = id.
Proof.
  intros [Hin Hid]%find_some. split; [by apply list_elem_of_In|].
  by apply bool_decide_eq_true in Hid.
Qed.


Lemma convertIngredient_run backend ingredient s :
  ing_unit ingredient ≠ "g"%string →
  convertIngredient backend ingredient s =
    ( Normal (lookupOutcome backend ingredient),
      mkBuilder (ingredients s) (convertingIds s ∖ {[ing_id ingredient]})
        (sent s ++ [requestOf ingredient]) ).
Proof.
  intros Hunit. rewrite convertIngredient_lookup by done.
  unfold lookupOutcome. do 2 f_equal. set_solver.
Qed.

(** The two ways [handleUnitChange] can run. *)
Lemma handleUnitChange_run backend id unit s :
  handleUnitChange backend id unit s =
    ( Normal (),
      match findById id (ingredients s) with
      | Some ingredient =>
          if decide (unit ≠ "g"%string) then
            let asked := spread ingredient (quantity ingredient) unit
                           (weight_g ingredient) (confidence ingredient)
                           (conversionNote ingredient) in
            mkBuilder
              (storeConversion id (lookupOutcome backend asked)
                 (markUnit id unit (ingredients s)))
              (convertingIds s ∖ {[ing_id ingredient]})
              (sent s ++ [requestOf asked])
          else mkBuilder (markUnit id unit (ingredients s))
                 (convertingIds s) (sent s)
      | None => mkBuilder (markUnit id unit (ingredients s))
                  (convertingIds s) (sent s)
      end ).
Proof.
  unfold handleUnitChange, mbind, Eff_bind, bind, gets, setIngredients, modify.
  cbn beta iota. cbn [ingredients convertingIds sent].
  destruct (findById id (ingredients s)) as [ingredient|]; [|done].
  destruct (decide (unit ≠ "g"%string)) as [Hunit|Hunit]; [|done].
  by rewrite convertIngredient_run.
Qed.

Lemma handleQuantityChange_run backend id parsed s :
  handleQuantityChange backend id parsed s =
    ( Normal (),
      let parsedQuantity := Num.orZero parsed in
      match findById id (ingredients s) with
      | Some ingredient =>
          if decide (ing_unit ingredient ≠ "g"%string) then
            let asked := spread ingredient parsedQuantity (ing_unit ingredient)
                           (weight_g ingredient) (confidence ingredient)
                           (conversionNote ingredient) in
            mkBuilder
              (storeConversion id (lookupOutcome backend asked)
                 (markQuantity id parsedQuantity (ingredients s)))
              (convertingIds s ∖ {[ing_id ingredient]})
              (sent s ++ [requestOf asked])
          else mkBuilder (markQuantity id parsedQuantity (ingredients s))
                 (convertingIds s) (sent s)
      | None => mkBuilder (markQuantity id parsedQuantity (ingredients s))
                  (convertingIds s) (sent s)
      end ).
Proof.
  unfold handleQuantityChange, mbind, Eff_bind, bind, gets, setIngredients,
    modify.
  cbn beta iota zeta. cbn [ingredients convertingIds sent].
  destruct (findById id (ingredients s)) as [ingredient|]; [|done].
  destruct (decide (ing_unit ingredient ≠ "g"%string)) as [Hunit|Hunit];
    [|done].
  by rewrite convertIngredient_run.
Qed.

(** X6.  For a unit other than ['g'], [convertIngredient] posts exactly one
    request, carrying the name, quantity and unit of the ingredient, and on
    both exits of the lookup the ingredient is no longer marked as
    converting and the rows are as they were. *)
Theorem convertIngredient_cleans_up backend ingredient s :
  ing_unit ingredient ≠ "g"%string →
  ∃ out s',
    convertIngredient backend ingredient s = (Normal out, s') ∧
    sent s' = sent s
              ++ [mkConvertRequest (description ingredient)
                    (quantity ingredient) (ing_unit ingredient)] ∧
    (ing_id ingredient ∉ convertingIds s') ∧
    (∀ other, other ≠ ing_id ingredient →
              (other ∈ convertingIds s' ↔ other ∈ convertingIds s)) ∧
    ingredients s' = ingredients s.
Proof.
  intros Hunit. rewrite convertIngredient_run by done.
  do 2 eexists. split; [done|]. simpl. split; [done|].
  split; [set_solver|]. split; [set_solver|done].
Qed.

Lemma convertIngredient_cleans_up_cases :
  ∃ out s',
    convertIngredient offline pendingCup
      (mkBuilder [pendingCup] {[4%Z; 5%Z]} []) = (Normal out, s') ∧
    sent s' = [mkConvertRequest "flour" #2 "cup"] ∧
    4%Z ∉ convertingIds s'.
Proof.
  destruct (convertIngredient_cleans_up offline pendingCup
              (mkBuilder [pendingCup] {[4%Z; 5%Z]} []))
    as (out & s' & Hrun & Hsent & Hclear & _); [discriminate|].
  exists out, s'. split; [exact Hrun|]. split; [exact Hsent|exact Hclear].
Defined.

Lemma markUnit_rowSettled id unit rows :
  Forall rowSettled rows → Forall rowSettled (markUnit id unit rows).
Proof.
  intros Hrows. unfold markUnit. apply Forall_fmap.
  eapply Forall_impl; [|exact Hrows]. intros ing Hing. unfold rowSettled.
  simpl. repeat case_decide; simpl; [done|split; by eexists|].
  split; by intros [? ?].
Qed.

Lemma markQuantity_rowSettled id parsedQuantity rows :
  Forall rowSettled rows →
  Forall rowSettled (markQuantity id parsedQuantity rows).
Proof.
  intros Hrows. unfold markQuantity. apply Forall_fmap.
  eapply Forall_impl; [|exact Hrows]. intros ing Hing. unfold rowSettled.
  simpl. repeat case_decide; simpl; [done|split; by eexists|].
  split; by intros [? ?].
Qed.

Lemma storeConversion_rowSettled id result rows :
  Forall rowSettled rows → Forall rowSettled (storeConversion id result rows).
Proof.
  intros Hrows. unfold storeConversion. apply Forall_fmap.
  eapply Forall_impl; [|exact Hrows]. intros ing Hing. unfold rowSettled.
  simpl. case_decide; simpl; [split; by eexists|done].
Qed.

(** One event keeps the rows settled and, when nothing was converting,
    leaves nothing converting. *)
Lemma dispatch_settled backend event s :
  Forall rowSettled (ingredients s) → convertingIds s = ∅ →
  ∃ s', dispatch backend event s = (Normal (), s') ∧
        Forall rowSettled (ingredients s') ∧ convertingIds s' = ∅.
Proof.
  intros Hrows Hids. destruct event as [now sel|id|id parsed|id unit|id parsed].
  - eexists. split; [done|]. simpl. split; [|done].
    apply Forall_app. split; [done|]. apply Forall_singleton.
    split; by eexists.
  - eexists. split; [done|]. simpl. split; [|done].
    apply Forall_forall.
    intros ing [_ Hin]%list_elem_of_In%list_elem_of_filter.
    by eapply (proj1 (Forall_forall _ _) Hrows), list_elem_of_In.
  - simpl. rewrite handleQuantityChange_run. eexists. split; [done|].
    cbn zeta. destruct (findById id (ingredients s)) as [ingredient|];
      [case_decide|]; simpl;
      (split; [|try done; rewrite Hids; set_solver]);
      try apply storeConversion_rowSettled;
      by apply markQuantity_rowSettled.
  - simpl. rewrite handleUnitChange_run. eexists. split; [done|].
    cbn zeta. destruct (findById id (ingredients s)) as [ingredient|];
      [case_decide|]; simpl;
      (split; [|try done; rewrite Hids; set_solver]);
      try apply storeConversion_rowSettled;
      by apply markUnit_rowSettled.
  - eexists. split; [done|]. simpl. split; [|done].
    apply Forall_fmap. eapply Forall_impl; [|exact Hrows].
    intros ing Hing. unfold rowSettled. simpl.
    case_decide; simpl; [split; by eexists|done].
Qed.

(** X7.  A session never throws, and after every event has run to
    completion each row has a weight exactly when it has a confidence tier
    and no row is marked as converting. *)
Theorem runEvents_settled events s :
  Forall rowSettled (ingredients s) → convertingIds s = ∅ →
  ∃ s', runEvents events s = (Normal (), s') ∧
        Forall rowSettled (ingredients s') ∧ convertingIds s' = ∅.
Proof.
  revert s. induction events as [|[backend event] rest IH]; intros s Hrows Hids.
  - exists s. by split.
  - destruct (dispatch_settled backend event s Hrows Hids)
      as (s1 & Hstep & Hrows1 & Hids1).
    destruct (IH s1 Hrows1 Hids1) as (s' & Hrest & Hrows' & Hids').
    exists s'. split; [|done].
    simpl. unfold mbind, Eff_bind, bind. by rewrite Hstep.
Qed.

Lemma runEvents_settled_cases :
  ∃ s', runEvents sampleSession (emptyBuilder []) = (Normal (), s') ∧
        Forall rowSettled (ingredients s') ∧ convertingIds s' = ∅.
Proof.
  apply (runEvents_settled sampleSession (emptyBuilder [])).
  - constructor.
  - reflexivity.
Defined.

(** The end of the sample session, run. *)
Lemma sampleSession_rows :
  ingredients (runEvents sampleSession (emptyBuilder [])).2
  = [ mkIngredient 10 "flour" #100 "g" (Some #250) (Some high) None
        (<["calories" := #364]> ∅);
      mkIngredient 11 "milk" #2 "cup" (Some (#2 * #125)) (Some medium)
        (Some "approximate density"%string) (<["calories" := #61]> ∅) ].
Proof. reflexivity. Qed.

Lemma markUnit_identity id unit rows :
  rowIdentity <$> markUnit id unit rows = rowIdentity <$> rows.
Proof.
  unfold markUnit. rewrite <- list_fmap_compose. apply list_fmap_ext.
  intros _ ing _. simpl. by repeat case_decide.
Qed.

Lemma markQuantity_identity id parsedQuantity rows :
  rowIdentity <$> markQuantity id parsedQuantity rows = rowIdentity <$> rows.
Proof.
  unfold markQuantity. rewrite <- list_fmap_compose. apply list_fmap_ext.
  intros _ ing _. simpl. by repeat case_decide.
Qed.

Lemma storeConversion_identity id result rows :
  rowIdentity <$> storeConversion id result rows = rowIdentity <$> rows.
Proof.
  unfold storeConversion. rewrite <- list_fmap_compose. apply list_fmap_ext.
  intros _ ing _. simpl. by case_decide.
Qed.

(** X8.  Editing a quantity, a unit or a weight never adds, drops or
    reorders rows and never touches a row's id, name or nutrition facts,
    whatever the backend answers. *)
Theorem edits_keep_rows backend event s :
  (∃ id parsed, event = QuantityChange id parsed) ∨
  (∃ id unit, event = UnitChange id unit) ∨
  (∃ id parsed, event = WeightChange id parsed) →
  rowIdentity <$> ingredients (dispatch backend event s).2
  = rowIdentity <$> ingredients s.
Proof.
  intros [(id & parsed & ->)|[(id & unit & ->)|(id & parsed & ->)]]; simpl.
  - rewrite handleQuantityChange_run. cbn zeta. simpl.
    destruct (findById id (ingredients s)); [case_decide|]; simpl;
      rewrite ?storeConversion_identity; apply markQuantity_identity.
  - rewrite handleUnitChange_run. cbn zeta. simpl.
    destruct (findById id (ingredients s)); [case_decide|]; simpl;
      rewrite ?storeConversion_identity; apply markUnit_identity.
  - rewrite <- list_fmap_compose. apply list_fmap_ext.
    intros _ ing _. simpl. by case_decide.
Qed.

Lemma edits_keep_rows_cases :
  rowIdentity <$> ingredients
    (dispatch offline (UnitChange 1 "cup")
       (emptyBuilder [ingredientA; ingredientB])).2
  = rowIdentity <$> [ingredientA; ingredientB].
Proof.
  apply (edits_keep_rows offline (UnitChange 1 "cup")
           (emptyBuilder [ingredientA; ingredientB])).
  right. left. by do 2 eexists.
Defined.







Lemma filter_other_ids id (rows : list Ingredient) :
  id ∉ ing_id <$> rows → filter (λ ing, ing_id ing ≠ id) rows = rows.
Proof.
  induction rows as [|ing rest IH]; intros Hfresh; [done|].
  rewrite fmap_cons in Hfresh. apply not_elem_of_cons in Hfresh as [Hne Hrest].
  rewrite list.filter_cons_True by (by apply not_eq_sym).
  by rewrite IH.
Qed.

(** X10.  Adding a food under a fresh id and removing that id again gives
    back the state there was; the other rows keep their place. *)
Theorem add_then_remove now selected s :
  now ∉ ing_id <$> ingredients s →
  (handleAddIngredient now selected;; handleRemoveIngredient now) s
  = (Normal (), s).
Proof.
  intros Hfresh. unfold mbind, Eff_bind, bind. simpl.
  destruct s as [rows ids posted]. simpl in *.
  unfold handleRemoveIngredient, setIngredients, modify. simpl. do 2 f_equal.
  rewrite list.filter_app, filter_other_ids by done.
  rewrite list.filter_cons, decide_False by (intros H; by apply H).
  by rewrite list.filter_nil, app_nil_r.
Qed.

Lemma add_then_remove_cases :
  (handleAddIngredient 12 ("salt"%string, ∅);; handleRemoveIngredient 12)
    (emptyBuilder [ingredientA; ingredientB])
  = (Normal (), emptyBuilder [ingredientA; ingredientB]).
Proof.
  apply add_then_remove.
  apply (bool_decide_unpack _). vm_compute. exact I.
Defined.

Lemma combinedNutrition_Some_inv rows combined :
  combinedNutrition rows = Some combined →
  rows ≠ [] ∧ Forall positiveWeight rows ∧
  combineIngredients rows = Some combined.
Proof.
  unfold combinedNutrition. intros Hc.
  destruct (bool_decide (length rows = 0%nat)) eqn:Hlen; [done|].
  destruct (forallb converted rows) eqn:Hall; [|done]. simpl in Hc.
  apply bool_decide_eq_false in Hlen.
  split; [intros ->; by apply Hlen|]. split; [|done].
  apply Forall_forall. intros ing Hin.
  pose proof (proj1 (forallb_forall _ _) Hall ing Hin) as Hconv.
  unfold converted in Hconv. destruct (weight_g ing) as [w|] eqn:Hw; [|done].
  exists w. split; [done|]. by apply bool_decide_eq_true in Hconv.
Qed.

Lemma handleConfirm_inv recipeName rows recipe :
  handleConfirm recipeName rows = Some recipe →
  combineIngredients rows = Some (rc_nutrition recipe) ∧
  rc_ingredients recipe
  = (λ ing, (description ing, quantity ing, ing_unit ing, weight_g ing))
    <$> rows.
Proof.
  unfold handleConfirm. intros Hp.
  destruct (combinedNutrition rows) as [combined|] eqn:Hc; [|done].
  destruct (bool_decide (length rows = 0%nat)); [done|].
  injection Hp as <-. simpl.
  by destruct (combinedNutrition_Some_inv _ _ Hc) as (_ & _ & ->).
Qed.

(** X11.  [handleConfirm] hands a recipe on only when there is at least
    one row and every row has a positive weight; the recipe then carries
    the aggregate of the rows, one entry per row, a positive total weight
    and a name that is never empty. *)
Theorem handleConfirm_payload recipeName rows payload :
  handleConfirm recipeName rows = Some payload →
  rows ≠ [] ∧ Forall positiveWeight rows ∧
  combineIngredients rows = Some (rc_nutrition payload) ∧
  length (rc_ingredients payload) = length rows ∧
  total_weight_g payload = total_mass rows ∧
  0 < total_weight_g payload ∧
  rc_product_name payload ≠ ""%string.
Proof.
  unfold handleConfirm. intros Hp.
  destruct (combinedNutrition rows) as [combined|] eqn:Hc; [|done].
  destruct (bool_decide (length rows = 0%nat)); [done|].
  injection Hp as <-. simpl.
  destruct (combinedNutrition_Some_inv _ _ Hc) as (Hne & Hpos & Hagg).
  repeat split; try done.
  - by rewrite length_fmap.
  - apply totalWeight_total_mass.
  - rewrite totalWeight_total_mass. by apply total_mass_positive.
  - unfold or_string. by case_decide.
Qed.

Lemma handleConfirm_payload_cases :
  ∃ payload,
    handleConfirm "" [ingredientA; ingredientB] = Some payload ∧
    rc_product_name payload = "Recipe"%string ∧
    0 < total_weight_g payload.
Proof.
  destruct (handleConfirm "" [ingredientA; ingredientB]) as [payload|] eqn:Hp;
    [|discriminate].
  exists payload.
  destruct (handleConfirm_payload "" [ingredientA; ingredientB] payload Hp)
    as (_ & _ & _ & _ & _ & Hpos & _).
  split; [reflexivity|]. split; [|exact Hpos].
  clear Hpos. apply (f_equal (fmap rc_product_name)) in Hp.
  by injection Hp as <-.
Defined.

(** Nothing is handed on while a row is pending or the list is empty. *)
Lemma handleConfirm_blocked :
  handleConfirm "soup" [] = None ∧
  handleConfirm "soup" [ingredientA; pendingCup] = None.
Proof. split; reflexivity. Qed.

Lemma lookupOutcome_fails backend ingredient :
  lookupFails backend ingredient →
  lookupOutcome backend ingredient = estimate ingredient.
Proof.
  intros Hfails. unfold lookupOutcome.
  destruct (backend (requestOf ingredient)) as [| |result] eqn:E; [done..|].
  by destruct (Hfails result).
Qed.

Lemma storeConversion_elem id result rows old :
  old ∈ rows → ing_id old = id →
  spread old (quantity old) (ing_unit old) (Some (conv_grams result))
    (Some (conv_confidence result)) (conv_note result)
  ∈ storeConversion id result rows.
Proof.
  intros Hin Hid. unfold storeConversion. apply list_elem_of_fmap.
  exists old. by rewrite decide_True.
Qed.

(** X12.  Emptying the quantity field (the parse gives [NaN], stored as 0)
    or typing 0 takes the recipe out of the aggregation: for a row in
    grams, and for any row whose lookup fails, the row is kept with
    quantity 0 and weight 0 (as is every row of its id and unit), and the
    combined nutrition is [null]. *)
Theorem handleQuantityChange_cleared backend id parsed s ing :
  findById id (ingredients s) = Some ing →
  Num.orZero parsed = 0 →
  ing_unit ing = "g"%string ∨
  lookupFails backend
    (spread ing 0 (ing_unit ing) (weight_g ing) (confidence ing)
       (conversionNote ing)) →
  ∃ s',
    handleQuantityChange backend id parsed s = (Normal (), s') ∧
    (∃ tier note,
       spread ing 0 (ing_unit ing) (Some 0) tier note ∈ ingredients s') ∧
    (∀ row, row ∈ ingredients s' → ing_id row = id →
            ing_unit row = ing_unit ing →
            quantity row = 0 ∧ weight_g row = Some 0) ∧
    combinedNutrition (ingredients s') = None.
Proof.
  intros Hfind Hzero Hcase. rewrite handleQuantityChange_run.
  eexists. split; [done|]. cbn zeta. rewrite Hfind, Hzero.
  destruct (findById_Some _ _ _ Hfind) as [Hin Hid].
  assert (0 * #100 = 0) as Hest by ring.
  destruct (decide (ing_unit ing ≠ "g"%string)) as [Hunit|Hunit]; simpl.
  - destruct Hcase as [?|Hfails]; [done|].
    rewrite (lookupOutcome_fails _ _ Hfails).
    assert (spread ing 0 (ing_unit ing) None None (conversionNote ing)
            ∈ markQuantity id 0 (ingredients s)) as Hmarked.
    { unfold markQuantity. apply list_elem_of_fmap. exists ing.
      split; [|exact Hin].
      rewrite decide_False by (intros H; by apply H).
      by rewrite decide_False. }
    pose proof (storeConversion_elem id
                  (estimate (spread ing 0 (ing_unit ing) (weight_g ing)
                               (confidence ing) (conversionNote ing)))
                  _ _ Hmarked Hid) as Hstored.
    simpl in Hstored. rewrite Hest in Hstored.
    split; [by eauto|]. split.
    + intros row Hrow Hrid _. unfold storeConversion in Hrow.
      apply list_elem_of_fmap in Hrow as (mid & -> & Hmid).
      unfold markQuantity in Hmid.
      apply list_elem_of_fmap in Hmid as (old & -> & Hold).
      destruct (decide (ing_id old ≠ id)) as [Hne|Heq].
      * rewrite decide_False in Hrid by done. done.
      * apply dec_stable in Heq.
        destruct (decide (ing_unit old = "g"%string));
          (rewrite decide_True by done); simpl; by rewrite Hest.
    + apply combinedNutrition_unconverted, Exists_exists.
      eexists. split; [apply list_elem_of_In; exact Hstored|done].
  - apply dec_stable in Hunit.
    assert (spread ing 0 (ing_unit ing) (Some 0) (Some high) None
            ∈ markQuantity id 0 (ingredients s)) as Hmarked.
    { unfold markQuantity. apply list_elem_of_fmap. exists ing.
      split; [|exact Hin].
      rewrite decide_False by (intros H; by apply H).
      by rewrite decide_True. }
    split; [by eauto|]. split.
    + intros row Hrow Hrid Hrunit. unfold markQuantity in Hrow.
      apply list_elem_of_fmap in Hrow as (old & -> & Hold).
      destruct (decide (ing_id old ≠ id)) as [Hne|Heq]; [done|].
      destruct (decide (ing_unit old = "g"%string)) as [Hg|Hng]; [done|].
      simpl in Hrunit. congruence.
    + apply combinedNutrition_unconverted, Exists_exists.
      eexists. split; [apply list_elem_of_In; exact Hmarked|done].
Qed.

Lemma handleQuantityChange_cleared_cases :
  ∃ s',
    handleQuantityChange offline 1 None
      (emptyBuilder [ingredientA; ingredientB]) = (Normal (), s') ∧
    (∃ tier note,
       spread ingredientA 0 "g" (Some 0) tier note ∈ ingredients s') ∧
    combinedNutrition (ingredients s') = None.
Proof.
  destruct (handleQuantityChange_cleared offline 1 None
              (emptyBuilder [ingredientA; ingredientB]) ingredientA)
    as (s' & Hrun & Hrow & _ & Hnull).
  - reflexivity.
  - reflexivity.
  - left. reflexivity.
  - exists s'. split; [exact Hrun|]. split; [exact Hrow|exact Hnull].
Defined.

(** The same through a failed lookup: a row in cups whose quantity is
    cleared is stored with the estimate for nothing, 0 g. *)
Lemma handleQuantityChange_cleared_cup :
  ingredients (handleQuantityChange offline 5 None
                 (emptyBuilder [ingredientA; mediumCup])).2
  = [ingredientA;
     mkIngredient 5 "milk" 0 "cup" (Some (0 * #100)) (Some low)
       (Some "Conversion failed. Using rough estimate."%string)
       (<["calories" := #61]> ∅)].
Proof. reflexivity. Qed.

(** X13.  A unit change whose lookup fails leaves its row with the
    estimate, the low tier and the warning note, so the low-confidence flag
    is up; once no row is pending the banner reads [warning-low]. *)
Theorem handleUnitChange_failed_flags backend id unit s ing :
  findById id (ingredients s) = Some ing →
  unit ≠ "g"%string →
  lookupFails backend
    (spread ing (quantity ing) unit (weight_g ing) (confidence ing)
       (conversionNote ing)) →
  ∃ s',
    handleUnitChange backend id unit s = (Normal (), s') ∧
    spread ing (quantity ing) unit (Some (quantity ing * #100)) (Some low)
      (Some "Conversion failed. Using rough estimate."%string)
    ∈ ingredients s' ∧
    hasLowConfidence (ingredients s') = true ∧
    (hasIncompleteConversions (ingredients s') = false →
     confidenceWarning (ingredients s') = WarningLow).
Proof.
  intros Hfind Hunit Hfails. rewrite handleUnitChange_run.
  eexists. split; [done|]. rewrite Hfind, decide_True by done.
  cbn zeta. simpl. rewrite (lookupOutcome_fails _ _ Hfails).
  destruct (findById_Some _ _ _ Hfind) as [Hin Hid].
  match goal with
  | |- ?row ∈ ?rows ∧ _ => assert (row ∈ rows) as Hrow
  end.
  { pose proof (storeConversion_elem id
        (estimate (spread ing (quantity ing) unit (weight_g ing)
                     (confidence ing) (conversionNote ing)))
        (markUnit id unit (ingredients s))
        (spread ing (quantity ing) unit None None (conversionNote ing)))
      as Hstored.
    apply Hstored; [|exact Hid].
    unfold markUnit. apply list_elem_of_fmap. exists ing. split; [|exact Hin].
    rewrite decide_False by (intros H; by apply H).
    by rewrite decide_False. }
  split; [exact Hrow|].
  match goal with
  | |- hasLowConfidence ?rows = true ∧ _ =>
      assert (hasLowConfidence rows = true) as Hlow
  end.
  { apply existsb_exists. eexists. split; [apply list_elem_of_In, Hrow|].
    done. }
  split; [exact Hlow|]. intros Hdone.
  unfold confidenceWarning, hasWarnings. by rewrite Hlow, Hdone.
Qed.

Lemma handleUnitChange_failed_flags_cases :
  ∃ s',
    handleUnitChange noMatch 2 "cup"
      (emptyBuilder [ingredientA; ingredientB]) = (Normal (), s') ∧
    confidenceWarning (ingredients s') = WarningLow.
Proof.
  destruct (handleUnitChange_failed_flags noMatch 2 "cup"
              (emptyBuilder [ingredientA; ingredientB]) ingredientB)
    as (s' & Hrun & _ & _ & Hbanner).
  - reflexivity.
  - discriminate.
  - intros result. discriminate.
  - exists s'. split; [exact Hrun|]. apply Hbanner.
    injection Hrun as <-. reflexivity.
Defined.

(** * More on ServingSizeForm *)



(** So are the Unicode spaces, alone or mixed with the ASCII ones; white
    space inside the text stays. *)
Lemma trim_unicode_spaces :
  trim nbsp = ""%string ∧
  trim ideographicSpace = ""%string ∧
  trim (" " +:+ nbsp +:+ ideographicSpace +:+ " ") = ""%string ∧
  trim (nbsp +:+ " 2 cups" +:+ nbsp +:+ "flour " +:+ ideographicSpace)
  = (("2 cups" +:+ nbsp) +:+ "flour")%string.
Proof. repeat split. Qed.

Section SubmitMore.

Context {P : Type}.
Variable backend : Nutrition → ServingConfig → CalculateReply P.
Variable nutrition : Nutrition.

Lemma handleSubmit_valid_run form :
  validForm form →
  handleSubmit P backend nutrition form =
    ( Normal (),
      match backend nutrition (configOf form) with
      | CalcSuccess per_serving =>
          mkForm P (servingSizeG P form) (servingDescription P form)
            (servingsPerContainer P form) false None
            (calculated P form ++ [(nutrition, configOf form)])
            (confirmed P form ++ [(configOf form, per_serving)])
      | CalcRejected message =>
          mkForm P (servingSizeG P form) (servingDescription P form)
            (servingsPerContainer P form) false
            (Some (or_string (Some message) "Calculation failed"))
            (calculated P form ++ [(nutrition, configOf form)])
            (confirmed P form)
      | CalcFailure error =>
          mkForm P (servingSizeG P form) (servingDescription P form)
            (servingsPerContainer P form) false
            (Some (or_string
                     (Some (or_string error "Calculation failed"))
                     "Calculation failed"))
            (calculated P form ++ [(nutrition, configOf form)])
            (confirmed P form)
      end ).
Proof.
  intros (Hsize & Hper & Hdesc).
  unfold handleSubmit, mbind, Eff_bind, bind, gets. simpl.
  unfold Num.leb0.
  rewrite !bool_decide_eq_false_2 by by apply Qclt_not_le.
  rewrite (bool_decide_eq_false_2 _ Hdesc).
  unfold try_finally, try_catch, calculatePerServing, mbind, Eff_bind, bind,
    modify, throw, ret. simpl. fold (configOf form).
  by destruct (backend nutrition (configOf form)).
Qed.

End SubmitMore.

Lemma or_string_nonempty value fallback :
  fallback ≠ ""%string → or_string value fallback ≠ ""%string.
Proof.
  intros Hfb. unfold or_string. destruct value as [v|]; [|done].
  by case_decide.
Qed.



(** X15.  A form that passes the checks (both numbers positive and a
    description that [trim] does not empty, the Unicode spaces counting as
    white space) posts exactly one request, with the configuration taken
    from the form, and ends with [isCalculating] off.  If the calculator answers, [onConfirm] is called once with that
    configuration and the answer, and no error is shown; if it fails in
    either way, [onConfirm] is not called and a non-empty error message is
    shown. *)
Theorem handleSubmit_outcome {P : Type}
    (backend : Nutrition → ServingConfig → CalculateReply P)
    (nutrition : Nutrition) (form : Form P) :
  validForm form →
  ∃ form',
    handleSubmit P backend nutrition form = (Normal (), form') ∧
    isCalculating P form' = false ∧
    calculated P form' = calculated P form ++ [(nutrition, configOf form)] ∧
    match backend nutrition (configOf form) with
    | CalcSuccess per_serving =>
        error P form' = None ∧
        confirmed P form' = confirmed P form ++ [(configOf form, per_serving)]
    | _ =>
        (∃ message, error P form' = Some message ∧ message ≠ ""%string) ∧
        confirmed P form' = confirmed P form
    end.
Proof.
  intros Hvalid. rewrite handleSubmit_valid_run by done.
  eexists. split; [done|].
  destruct (backend nutrition (configOf form));
    cbn [error isCalculating calculated confirmed];
    (split; [done|]); (split; [done|]); (split; [|done]); try done;
    eexists; (split; [done|]); by apply or_string_nonempty.
Qed.

Lemma handleSubmit_outcome_cases :
  (∃ form',
     handleSubmit Nutrition brokenCalculator ∅ initialForm
     = (Normal (), form') ∧
     isCalculating Nutrition form' = false ∧
     confirmed Nutrition form' = []) ∧
  (∃ form',
     handleSubmit Nutrition unreachableCalculator ∅ initialForm
     = (Normal (), form') ∧
     isCalculating Nutrition form' = false ∧
     confirmed Nutrition form' = []).
Proof.
  split.
  - destruct (handleSubmit_outcome brokenCalculator ∅ initialForm)
      as (form' & Hrun & Hflag & _ & _ & Hconf);
      [split; [done|split; [done|discriminate]]|].
    exists form'. split; [exact Hrun|]. split; [exact Hflag|exact Hconf].
  - destruct (handleSubmit_outcome unreachableCalculator ∅ initialForm)
      as (form' & Hrun & Hflag & _ & _ & Hconf);
      [split; [done|split; [done|discriminate]]|].
    exists form'. split; [exact Hrun|]. split; [exact Hflag|exact Hconf].
Defined.

(** A description of no-break spaces passes no check: the form is refused
    like one with an empty description. *)
Lemma handleSubmit_nbsp_description :
  ¬ validForm (mkForm Nutrition #30 (nbsp +:+ nbsp) 1 false None [] []) ∧
  handleSubmit Nutrition echoCalculator ∅
    (mkForm Nutrition #30 (nbsp +:+ nbsp) 1 false None [] [])
  = (Normal (),
     mkForm Nutrition #30 (nbsp +:+ nbsp) 1 false
       (Some "Please enter a serving description"%string) [] []).
Proof. split; [|reflexivity]. by intros (_ & _ & Hdesc). Qed.

(** The messages shown for the two failures. *)
Lemma handleSubmit_failure_messages :
  error Nutrition (handleSubmit Nutrition brokenCalculator ∅ initialForm).2
    = Some "Calculation failed"%string ∧
  error Nutrition (handleSubmit Nutrition unreachableCalculator ∅ initialForm).2
    = Some "Failed to fetch"%string.
Proof. split; reflexivity. Qed.

(** * client.js: file types *)

Lemma toLowerCase_app a b :
  toLowerCase (a +:+ b) = toLowerCase a +:+ toLowerCase b.
Proof. induction a as [|c a IH]; simpl; [done|]. by rewrite IH. Qed.

Lemma endsWith_refl s : endsWith s s = true.
Proof. destruct s; simpl; [done|]. by rewrite bool_decide_eq_true_2. Qed.

Lemma endsWith_app a suffix : endsWith (a +:+ suffix) suffix = true.
Proof.
  induction a as [|c a IH]; simpl.
  - apply endsWith_refl.
  - rewrite IH. apply orb_true_r.
Qed.

Lemma endsWith_inv s suffix :
  endsWith s suffix = true → ∃ a, s = a +:+ suffix.
Proof.
  induction s as [|c s IH]; simpl.
  - rewrite orb_false_r. intros ->%bool_decide_eq_true. by exists ""%string.
  - intros [->%bool_decide_eq_true|Htail]%orb_true_iff.
    + by exists ""%string.
    + destruct (IH Htail) as [a ->]. by exists (String c a).
Qed.

(** Two endings of one string: one of them ends the other. *)
Lemma endsWith_two s a b :
  endsWith s a = true → endsWith s b = true →
  endsWith a b = true ∨ endsWith b a = true.
Proof.
  induction s as [|c s IH]; simpl.
  - rewrite !orb_false_r.
    intros <-%bool_decide_eq_true <-%bool_decide_eq_true. by left.
  - intros [<-%bool_decide_eq_true|Ha]%orb_true_iff
           [<-%bool_decide_eq_true|Hb]%orb_true_iff.
    + left. apply endsWith_refl.
    + left. simpl. rewrite Hb. apply orb_true_r.
    + right. simpl. rewrite Ha. apply orb_true_r.
    + by apply IH.
Qed.

Lemma endsWith_char s c t :
  endsWith s (String c t) = true → c ∈ list_ascii_of_string s.
Proof.
  induction s as [|d s IH]; simpl.
  - done.
  - intros [Heq%bool_decide_eq_true|Htail]%orb_true_iff.
    + injection Heq as -> ->. apply list_elem_of_here.
    + apply list_elem_of_further. by apply IH.
Qed.

Lemma lowerChar_dot c : lowerChar c = "."%char → c = "."%char.
Proof.
  unfold lowerChar.
  destruct ((65 <=? nat_of_ascii c) && (nat_of_ascii c <=? 90))%nat eqn:Hup;
    [|done].
  apply andb_true_iff in Hup as [Hlo%Nat.leb_le Hhi%Nat.leb_le].
  intros Hdot. apply (f_equal nat_of_ascii) in Hdot.
  rewrite nat_ascii_embedding in Hdot by lia.
  change (nat_of_ascii ".") with 46%nat in Hdot. lia.
Qed.

Lemma toLowerCase_dot s :
  "."%char ∈ list_ascii_of_string (toLowerCase s) →
  "."%char ∈ list_ascii_of_string s.
Proof.
  induction s as [|c s IH]; simpl; [done|].
  intros [Hc|Hs]%elem_of_cons.
  - symmetry in Hc. apply lowerChar_dot in Hc as ->. apply list_elem_of_here.
  - apply list_elem_of_further. by apply IH.
Qed.

(** X16.  The extension decides the type whatever the letter case and
    whatever comes before it: a name ending in [.pdf] is a ['pdf'], a name
    ending in one of the seven image extensions is an ['image']. *)
Theorem detectFileType_extension base suffix :
  (toLowerCase suffix = ".pdf"%string →
   detectFileType (base +:+ suffix) = "pdf"%string) ∧
  (∀ ext, ext ∈ imageExtensions →
          toLowerCase suffix = ("." +:+ ext)%string →
          detectFileType (base +:+ suffix) = "image"%string).
Proof.
  split.
  - intros Hpdf. unfold detectFileType.
    by rewrite toLowerCase_app, Hpdf, endsWith_app.
  - intros ext Hext Himg. unfold detectFileType.
    rewrite toLowerCase_app, Himg.
    destruct (endsWith (toLowerCase base +:+ "." +:+ ext) ".pdf") eqn:Hpdf.
    + exfalso.
      destruct (endsWith_two _ _ _ Hpdf (endsWith_app _ _)) as [H|H];
        revert H; unfold imageExtensions in Hext;
        rewrite !elem_of_cons, elem_of_nil in Hext;
        repeat destruct Hext as [->|Hext]; done.
    + assert (existsb
                (λ e, endsWith (toLowerCase base +:+ "." +:+ ext) ("." +:+ e))
                imageExtensions = true) as ->; [|done].
      apply existsb_exists. exists ext.
      split; [by apply list_elem_of_In|apply endsWith_app].
Qed.

Lemma detectFileType_extension_cases :
  detectFileType "Spec Sheet.v2.PDF" = "pdf"%string ∧
  detectFileType "photos/label.Jpeg" = "image"%string.
Proof.
  split.
  - by apply (proj1 (detectFileType_extension "Spec Sheet.v2" ".PDF")).
  - apply (proj2 (detectFileType_extension "photos/label" ".Jpeg") "jpeg");
      [|done]. apply (bool_decide_unpack _). vm_compute. exact I.
Defined.

(** X17.  A name without a dot is ['text']. *)
Theorem detectFileType_no_dot name :
  "."%char ∉ list_ascii_of_string name →
  detectFileType name = "text"%string.
Proof.
  intros Hdot. unfold detectFileType.
  assert (∀ t, endsWith (toLowerCase name) (String "." t) = false) as Hno.
  { intros t. apply not_true_is_false. intros Hends.
    by apply Hdot, toLowerCase_dot, (endsWith_char _ _ t). }
  rewrite (Hno "pdf"%string).
  assert (existsb (λ ext, endsWith (toLowerCase name) ("." +:+ ext))
            imageExtensions = false) as ->; [|done].
  apply not_true_is_false. intros (ext & _ & Hends)%existsb_exists.
  change ("." +:+ ext)%string with (String "." ext) in Hends.
  by rewrite Hno in Hends.
Qed.

Lemma detectFileType_no_dot_cases :
  detectFileType "README" = "text"%string ∧
  detectFileType "pdf" = "text"%string.
Proof.
  split; apply detectFileType_no_dot;
    apply (bool_decide_unpack _); vm_compute; exact I.
Defined.

(** * FileUpload *)

(** X18.  The check of the MIME type only looks at what comes before the
    slash: a file passes exactly when its type starts with [application],
    [image] or [text]; the five listed types add nothing to that. *)
Theorem isValid_prefix file :
  FileUpload.isValid file
  = startsWith (file_type file) "application"
    || startsWith (file_type file) "image"
    || startsWith (file_type file) "text".
Proof.
  unfold FileUpload.isValid, FileUpload.validTypes.
  cbn [existsb FileUpload.beforeSlash].
  change (FileUpload.beforeSlash "application/pdf") with "application"%string.
  change (FileUpload.beforeSlash "image/png") with "image"%string.
  change (FileUpload.beforeSlash "image/jpeg") with "image"%string.
  change (FileUpload.beforeSlash "image/gif") with "image"%string.
  change (FileUpload.beforeSlash "text/plain") with "text"%string.
  repeat case_bool_decide;
    repeat match goal with H : file_type file = _ |- _ => rewrite H end;
    try done;
    by destruct (startsWith (file_type file) "application"),
                (startsWith (file_type file) "image"),
                (startsWith (file_type file) "text").
Qed.

(** So an installer or an archive passes the type check. *)
Lemma isValid_prefix_cases :
  FileUpload.isValid zipFile = true ∧
  FileUpload.isValid (mkFile "notes" "textual" 1) = true ∧
  FileUpload.isValid (mkFile "song.mp3" "audio/mpeg" 1) = false.
Proof.
  split; [|split]; by rewrite isValid_prefix.
Defined.

Section Upload.

Context {D : Type}.
Variable reader : File → option string.
Variable server : ExtractRequest → FileUpload.ExtractReply D.
Variable isRecipeMode : bool.

Lemma handleFile_accepted_run file s :
  FileUpload.isValid file || endsWith (file_name file) ".pdf" = true →
  (file_size file ≤ FileUpload.maxSize)%Z →
  FileUpload.handleFile reader server isRecipeMode file s =
    ( Normal (),
      match reader file with
      | None =>
          FileUpload.mkState (FileUpload.isDragging s) false
            (Some (file_name file))
            (FileUpload.errors s ++ [extractFallback isRecipeMode])
            (FileUpload.extractions s) (FileUpload.posted s)
      | Some base64 =>
          match server (requestFor isRecipeMode file base64) with
          | FileUpload.ExtractSuccess data =>
              FileUpload.mkState (FileUpload.isDragging s) false
                (Some (file_name file)) (FileUpload.errors s)
                (FileUpload.extractions s ++ [data])
                (FileUpload.posted s ++ [requestFor isRecipeMode file base64])
          | FileUpload.ExtractRejected message =>
              FileUpload.mkState (FileUpload.isDragging s) false
                (Some (file_name file))
                (FileUpload.errors s
                 ++ [or_string (Some message) (extractFallback isRecipeMode)])
                (FileUpload.extractions s)
                (FileUpload.posted s ++ [requestFor isRecipeMode file base64])
          | FileUpload.ExtractFailure error =>
              FileUpload.mkState (FileUpload.isDragging s) false
                (Some (file_name file))
                (FileUpload.errors s
                 ++ [or_string
                       (Some (or_string error
                                (if isRecipeMode
                                 then "Recipe extraction failed"
                                 else "Extraction failed")))
                       (extractFallback isRecipeMode)])
                (FileUpload.extractions s)
                (FileUpload.posted s ++ [requestFor isRecipeMode file base64])
          end
      end ).
Proof.
  intros Htype Hsize. unfold FileUpload.handleFile.
  replace (negb (FileUpload.isValid file)
           && negb (endsWith (file_name file) ".pdf")) with false
    by (rewrite <- negb_orb, Htype; done).
  rewrite bool_decide_eq_false_2 by lia.
  unfold requestFor, extractFallback.
  destruct isRecipeMode;
    unfold FileUpload.extractRecipeFromFile, FileUpload.extractNutrition,
      FileUpload.extractFrom, FileUpload.fileToBase64, try_finally, try_catch,
      mbind, Eff_bind, bind, FileUpload.onError, FileUpload.onExtraction,
      FileUpload.setFileName, FileUpload.setIsLoading, modify, throw, ret;
    cbn beta iota;
    cbn [FileUpload.isDragging FileUpload.isLoading FileUpload.fileName
         FileUpload.errors FileUpload.extractions FileUpload.posted];
    (destruct (reader file) as [base64|]; [|done]);
    cbn beta iota zeta;
    cbn [FileUpload.isDragging FileUpload.isLoading FileUpload.fileName
         FileUpload.errors FileUpload.extractions FileUpload.posted];
    by destruct (server _).
Qed.

End Upload.

(** X19.  A file whose type fails the check and whose name does not end in
    [.pdf], or a file above 10 MiB, is answered with one call of [onError]
    and nothing else: the state of the component is untouched, the file is
    not read and nothing is posted. *)
Theorem handleFile_rejects {D : Type} (reader : File → option string)
    (server : ExtractRequest → FileUpload.ExtractReply D)
    (isRecipeMode : bool) (file : File) (s : FileUpload.State D) :
  (FileUpload.isValid file = false ∧
   endsWith (file_name file) ".pdf" = false) ∨
  (file_size file > 10485760)%Z →
  ∃ message,
    FileUpload.handleFile reader server isRecipeMode file s
    = (Normal (),
       FileUpload.mkState (FileUpload.isDragging s) (FileUpload.isLoading s)
         (FileUpload.fileName s) (FileUpload.errors s ++ [message])
         (FileUpload.extractions s) (FileUpload.posted s)).
Proof.
  intros Hbad. unfold FileUpload.handleFile.
  destruct (negb (FileUpload.isValid file)
            && negb (endsWith (file_name file) ".pdf")) eqn:Htype.
  - by eexists.
  - destruct Hbad as [[Hv Hn]|Hsize]; [by rewrite Hv, Hn in Htype|].
    rewrite bool_decide_eq_true_2 by done. by eexists.
Qed.

Lemma handleFile_rejects_cases :
  (∃ message,
     FileUpload.handleFile readable echoServer false shoutedPdf idleUpload
     = (Normal (), FileUpload.mkState false false None [message] [] [])) ∧
  (∃ message,
     FileUpload.handleFile readable echoServer false hugeImage idleUpload
     = (Normal (), FileUpload.mkState false false None [message] [] [])).
Proof.
  split.
  - apply (handleFile_rejects readable echoServer false shoutedPdf idleUpload).
    left. split; reflexivity.
  - apply (handleFile_rejects readable echoServer false hugeImage idleUpload).
    right. reflexivity.
Defined.

(** The name check is case sensitive where [detectFileType] is not: a PDF
    whose name is in capitals and whose type the browser left empty is
    refused, and so is a file of exactly one byte too many. *)
Lemma handleFile_refusals :
  detectFileType (file_name shoutedPdf) = "pdf"%string ∧
  FileUpload.errors
    (FileUpload.handleFile readable echoServer false shoutedPdf idleUpload).2
  = ["Please upload a PDF, image, or text file"%string] ∧
  FileUpload.errors
    (FileUpload.handleFile readable echoServer false hugeImage idleUpload).2
  = ["File size must be less than 10MB"%string].
Proof. repeat split. Qed.

(** X20.  A file that passes both checks is never answered with an
    exception: the component ends with the file's name stored and the
    loading flag off, at most one request has been posted, carrying the
    name and the type [detectFileType] gives it, and exactly one of
    [onExtraction] and [onError] has been called, the error message being
    non-empty. *)
Theorem handleFile_outcome {D : Type} (reader : File → option string)
    (server : ExtractRequest → FileUpload.ExtractReply D)
    (isRecipeMode : bool) (file : File) (s : FileUpload.State D) :
  FileUpload.isValid file || endsWith (file_name file) ".pdf" = true →
  (file_size file ≤ 10485760)%Z →
  ∃ s',
    FileUpload.handleFile reader server isRecipeMode file s = (Normal (), s') ∧
    FileUpload.isLoading s' = false ∧
    FileUpload.fileName s' = Some (file_name file) ∧
    (FileUpload.posted s' = FileUpload.posted s ∨
     ∃ base64,
       FileUpload.posted s'
       = FileUpload.posted s
         ++ [mkExtractRequest
               (if isRecipeMode then RecipeExtractEndpoint
                else ExtractEndpoint)
               base64 (detectFileType (file_name file)) (file_name file)]) ∧
    ((∃ data, FileUpload.extractions s' = FileUpload.extractions s ++ [data] ∧
              FileUpload.errors s' = FileUpload.errors s) ∨
     (∃ message, message ≠ ""%string ∧
                 FileUpload.errors s' = FileUpload.errors s ++ [message] ∧
                 FileUpload.extractions s' = FileUpload.extractions s)).
Proof.
  intros Htype Hsize.
  rewrite (handleFile_accepted_run reader server isRecipeMode) by done.
  eexists. split; [done|].
  assert (extractFallback isRecipeMode ≠ ""%string) as Hfb
    by by destruct isRecipeMode.
  destruct (reader file) as [base64|].
  - destruct (server (requestFor isRecipeMode file base64));
      cbn [FileUpload.isLoading FileUpload.fileName FileUpload.errors
           FileUpload.extractions FileUpload.posted];
      (split; [done|]); (split; [done|]);
      (split; [right; by exists base64|]).
    + right. eexists. split; [|done]. by apply or_string_nonempty.
    + right. eexists. split; [|done]. by apply or_string_nonempty.
    + left. by eexists.
  - cbn [FileUpload.isLoading FileUpload.fileName FileUpload.errors
         FileUpload.extractions FileUpload.posted].
    split; [done|]. split; [done|]. split; [by left|].
    right. by eexists.
Qed.

Lemma handleFile_outcome_cases :
  ∃ s',
    FileUpload.handleFile readable echoServer true smallImage idleUpload
    = (Normal (), s') ∧
    FileUpload.isLoading s' = false ∧
    FileUpload.fileName s' = Some "label.JPG"%string.
Proof.
  destruct (handleFile_outcome readable echoServer true smallImage idleUpload)
    as (s' & Hrun & Hload & Hname & _); [reflexivity|discriminate|].
  exists s'. split; [exact Hrun|]. split; [exact Hload|exact Hname].
Defined.

(** The accepted image, run: the request says ['image']. *)
Lemma handleFile_posts_type :
  FileUpload.posted
    (FileUpload.handleFile readable echoServer true smallImage idleUpload).2
  = [mkExtractRequest RecipeExtractEndpoint "QUJD" "image" "label.JPG"].
Proof. reflexivity. Qed.

(** * App: the wizard *)

Section WizardFacts.

Context {P L R : Type}.
Implicit Types s : App.State P L R.

Lemma coherent_shown s : App.coherent s = true → App.shown s = true.
Proof.
  unfold App.coherent, App.shown. destruct (App.step s); try done.
  - by intros [_ ?]%andb_true_iff.
  - by intros [_ ?]%andb_true_iff.
Qed.

Lemma handle_coherent (event : App.Event P L R) s :
  App.coherent s = true →
  App.raisedAt event (App.step s) = true →
  App.coherent (App.handle event s) = true.
Proof.
  unfold App.coherent. intros Hs Hat.
  destruct event, (App.step s) eqn:Hstep; try done; simpl;
    unfold App.handleBack; simpl; rewrite ?Hstep; simpl; rewrite ?Hstep;
    try done;
    repeat match goal with
           | H : _ && _ = true |- _ => apply andb_true_iff in H as [? ?]
           end;
    rewrite ?andb_true_iff; repeat split; try done;
    apply bool_decide_eq_true; by eexists.
Qed.

Lemma run_coherent (events : list (App.Event P L R)) : ∀ s s',
  App.coherent s = true → App.run events s = Some s' →
  App.coherent s' = true.
Proof.
  induction events as [|event rest IH]; intros s s' Hs Hrun; simpl in Hrun.
  - by injection Hrun as <-.
  - destruct (App.raisedAt event (App.step s) && App.shown s) eqn:Hen;
      [|done].
    apply andb_true_iff in Hen as [Hat _].
    apply (IH (App.handle event s)); [|done]. by apply handle_coherent.
Qed.

End WizardFacts.

(** X21.  However the user walks through the wizard, as long as every
    callback arrives while the component that holds it is on screen, the
    step reached has its data: the step content is never empty. *)
Theorem wizard_always_shows {P L R : Type} (events : list (App.Event P L R))
    (s : App.State P L R) :
  App.run events App.initial = Some s → App.shown s = true.
Proof.
  intros Hrun. apply coherent_shown.
  by apply (run_coherent events App.initial).
Qed.

Lemma wizard_always_shows_cases :
  ∃ s, App.run sampleWalk App.initial = Some s ∧
       App.step s = App.SERVING ∧ App.shown s = true.
Proof.
  destruct (App.run sampleWalk App.initial) as [s|] eqn:Hrun; [|discriminate].
  exists s. split; [reflexivity|].
  split; [by injection Hrun as <-|].
  by apply (wizard_always_shows sampleWalk).
Defined.

(** X22.  What the recipe builder hands on is what the editor receives:
    after [handleConfirm] and [handleRecipeComplete] the wizard is at the
    edit step with the aggregate of the rows as its nutrition and the row
    names, joined by commas, as its ingredient list. *)
Theorem builder_to_editor {P L R : Type} recipeName rows recipe
    (s : App.State P L R) :
  handleConfirm recipeName rows = Some recipe →
  let s' := App.handleRecipeComplete recipe s in
  App.step s' = App.EDIT ∧
  App.shown s' = true ∧
  App.nutritionState s' = combineIngredients rows ∧
  App.extractedData s' ≫= App.nutrition = combineIngredients rows ∧
  App.extractedData s' ≫= App.ingredients_list
  = Some (String.concat ", " (description <$> rows)) ∧
  App.error s' = None.
Proof.
  intros Hconfirm.
  destruct (handleConfirm_inv recipeName rows recipe Hconfirm)
    as (Hagg & Hrows).
  simpl. rewrite Hagg. repeat split.
  f_equal. f_equal. rewrite Hrows, <- list_fmap_compose.
  by apply list_fmap_ext.
Qed.

Lemma builder_to_editor_cases :
  ∃ recipe,
    handleConfirm "Mix" [ingredientA; ingredientB] = Some recipe ∧
    App.extractedData
      (App.handleRecipeComplete recipe
         (App.initial : App.State string string string))
    ≫= App.ingredients_list
    = Some "A, B"%string.
Proof.
  destruct (handleConfirm "Mix" [ingredientA; ingredientB]) as [recipe|] eqn:Hc;
    [|discriminate].
  exists recipe. split; [reflexivity|].
  by destruct (builder_to_editor "Mix" [ingredientA; ingredientB] recipe
                 (App.initial : App.State string string string) Hc)
    as (_ & _ & _ & _ & -> & _).
Defined.

(** X23.  Going back from the preview and confirming another serving size
    brings the preview back with the label generated before: the label
    data is kept, so the preview does not ask for a new label on mount. *)
Theorem stale_label_after_back {P L R : Type} (s : App.State P L R)
    config perServingData :
  App.step s = App.PREVIEW → is_Some (App.labelData s) →
  let s' := App.handleServingConfirm config perServingData (App.handleBack s)
  in
  App.step s' = App.PREVIEW ∧
  App.perServing s' = Some perServingData ∧
  App.labelData s' = App.labelData s ∧
  generatesOnMount (App.labelData s') = false.
Proof.
  intros Hstep Hlabel. simpl. unfold App.handleBack. rewrite Hstep. simpl.
  repeat split. unfold generatesOnMount. by rewrite bool_decide_eq_true_2.
Qed.

Lemma stale_label_after_back_cases :
  ∃ s,
    App.run
      [ App.OnExtraction (App.mkExtractedData None None None []);
        App.OnNutritionConfirm ∅;
        App.OnServingConfirm (mkServingConfig #30 "30g" 1) "small"%string;
        App.OnLabelGenerated "label for small"%string;
        App.OnBack;
        App.OnServingConfirm (mkServingConfig #60 "60g" 1) "large"%string ]
      (App.initial : App.State string string string) = Some s ∧
    App.perServing s = Some "large"%string ∧
    App.labelData s = Some "label for small"%string.
Proof.
  eexists. split; [reflexivity|].
  pose proof (stale_label_after_back
    (App.mkState App.PREVIEW (Some (App.mkExtractedData None None None []))
       (Some ∅) (Some (mkServingConfig #30 "30g" 1)) (Some "small"%string)
       (Some "label for small"%string) None (None : option string))
    (mkServingConfig #60 "60g" 1) "large"%string eq_refl
    (ex_intro _ _ eq_refl)) as (_ & Hper & Hlabel & _).
  split; [exact Hper|exact Hlabel].
Defined.

(** * IngredientSearch *)

Lemma toggleDataType_elem type prev t :
  t ∈ IngredientSearch.toggleDataType type prev ↔
  if decide (t = type) then type ∉ prev else t ∈ prev.
Proof.
  unfold IngredientSearch.toggleDataType.
  case_bool_decide as Hin; case_decide as Heq; subst.
  - rewrite list_elem_of_filter. split; [by intros [? _]|done].
  - rewrite list_elem_of_filter. split; [by intros [_ ?]|done].
  - rewrite elem_of_app, list_elem_of_singleton. split; [done|by right].
  - rewrite elem_of_app, list_elem_of_singleton. split; [|by left].
    by intros [?|?].
Qed.

(** X24.  Ticking a data source flips that source and no other: after the
    toggle it is selected exactly if it was not, every other source is
    selected exactly if it was, and a list without repetitions stays
    without repetitions. *)
Theorem toggleDataType_flips type prev :
  (type ∈ IngredientSearch.toggleDataType type prev ↔ type ∉ prev) ∧
  (∀ t, t ≠ type →
        (t ∈ IngredientSearch.toggleDataType type prev ↔ t ∈ prev)) ∧
  (NoDup prev → NoDup (IngredientSearch.toggleDataType type prev)).
Proof.
  split; [|split].
  - by rewrite toggleDataType_elem, decide_True.
  - intros t Hne. by rewrite toggleDataType_elem, decide_False.
  - intros Hnd. unfold IngredientSearch.toggleDataType.
    case_bool_decide as Hin.
    + by apply list.NoDup_filter.
    + apply list.NoDup_app. split; [done|].
      split; [|apply list.NoDup_singleton].
      intros t Ht ->%list_elem_of_singleton. done.
Qed.

Lemma toggleDataType_flips_cases :
  IngredientSearch.toggleDataType "Branded" ["Foundation"; "SR Legacy"]%string
  = ["Foundation"; "SR Legacy"; "Branded"]%string ∧
  ("Branded"%string
   ∈ IngredientSearch.toggleDataType "Branded"
       ["Foundation"; "SR Legacy"]%string).
Proof.
  split; [reflexivity|].
  apply (proj1 (toggleDataType_flips "Branded"
                  ["Foundation"; "SR Legacy"]%string)).
  apply (bool_decide_unpack _). vm_compute. exact I.
Defined.

Lemma filter_absent (type : string) (prev : list string) :
  type ∉ prev → filter (λ t, t ≠ type) prev = prev.
Proof.
  induction prev as [|t prev IH]; intros Hnot; [done|].
  apply not_elem_of_cons in Hnot as [Hne Hrest].
  rewrite list.filter_cons_True by (by apply not_eq_sym). by rewrite IH.
Qed.

(** X25.  Ticking a source that was not selected and unticking it again
    gives back the very list there was. *)
Theorem toggleDataType_twice type prev :
  type ∉ prev →
  IngredientSearch.toggleDataType type
    (IngredientSearch.toggleDataType type prev) = prev.
Proof.
  intros Hnot. unfold IngredientSearch.toggleDataType at 2.
  rewrite bool_decide_eq_false_2 by done.
  unfold IngredientSearch.toggleDataType.
  rewrite bool_decide_eq_true_2
    by (apply elem_of_app; right; by apply list_elem_of_singleton).
  rewrite list.filter_app, filter_absent by done.
  rewrite list.filter_cons, decide_False by (intros H; by apply H).
  by rewrite list.filter_nil, app_nil_r.
Qed.

Lemma toggleDataType_twice_cases :
  IngredientSearch.toggleDataType "Survey"
    (IngredientSearch.toggleDataType "Survey"
       ["Foundation"; "SR Legacy"]%string)
  = ["Foundation"; "SR Legacy"]%string.
Proof.
  apply toggleDataType_twice.
  apply (bool_decide_unpack _). vm_compute. exact I.
Defined.

(** Unticking and ticking again a source that was selected moves it to the
    end of the list. *)
Lemma toggleDataType_reorders :
  IngredientSearch.toggleDataType "Foundation"
    (IngredientSearch.toggleDataType "Foundation"
       ["Foundation"; "SR Legacy"]%string)
  = ["SR Legacy"; "Foundation"]%string.
Proof. reflexivity. Qed.

Lemma handleSearch_run {F : Type}
    (server : IngredientSearch.SearchParams → IngredientSearch.SearchReply F)
    (s : IngredientSearch.State F) :
  trim (IngredientSearch.query s) ≠ ""%string →
  IngredientSearch.handleSearch server s =
    ( Normal (),
      let after found e :=
        IngredientSearch.mkState (IngredientSearch.query s) found false e
          (IngredientSearch.selectedTypes s)
          (IngredientSearch.searches s ++ [searchParamsOf s]) in
      match server (searchParamsOf s) with
      | IngredientSearch.SearchSuccess found => after found None
      | IngredientSearch.SearchRejected message => after [] (Some message)
      | IngredientSearch.SearchFailure error =>
          after [] (Some (or_string error "USDA search failed"))
      end ).
Proof.
  intros Hquery. unfold IngredientSearch.handleSearch, mbind, Eff_bind, bind,
    gets, id. cbn beta iota.
  rewrite (bool_decide_eq_false_2 _ Hquery).
  unfold searchParamsOf, try_finally, try_catch,
    IngredientSearch.searchUSDAFoods, mbind, Eff_bind, bind,
    IngredientSearch.setLoading, IngredientSearch.setError,
    IngredientSearch.setResults, modify, throw, ret.
  cbn beta iota zeta.
  cbn [IngredientSearch.query IngredientSearch.results
       IngredientSearch.loading IngredientSearch.error
       IngredientSearch.selectedTypes IngredientSearch.searches].
  destruct (IngredientSearch.selectedTypes s) as [|t ts];
    by destruct (server _).
Qed.

(** X26.  A search whose query [trim] empties (nothing, or white space
    only, the Unicode spaces included) does nothing at all.  Any other
    search posts one request, which names the data sources only when some
    are selected, and ends with the loading flag off: with the foods found
    and no error if it succeeds, with an empty result list and the error
    message if it fails. *)
Theorem handleSearch_outcome {F : Type}
    (server : IngredientSearch.SearchParams → IngredientSearch.SearchReply F)
    (s : IngredientSearch.State F) :
  (trim (IngredientSearch.query s) = ""%string →
   IngredientSearch.handleSearch server s = (Normal (), s)) ∧
  (trim (IngredientSearch.query s) ≠ ""%string →
   ∃ s' params,
     IngredientSearch.handleSearch server s = (Normal (), s') ∧
     IngredientSearch.searches s' = IngredientSearch.searches s ++ [params] ∧
     IngredientSearch.q params = IngredientSearch.query s ∧
     (IngredientSearch.data_types params = None
      ↔ IngredientSearch.selectedTypes s = []) ∧
     IngredientSearch.loading s' = false ∧
     IngredientSearch.query s' = IngredientSearch.query s ∧
     IngredientSearch.selectedTypes s' = IngredientSearch.selectedTypes s ∧
     match server params with
     | IngredientSearch.SearchSuccess found =>
         IngredientSearch.results s' = found ∧
         IngredientSearch.error s' = None
     | _ =>
         IngredientSearch.results s' = [] ∧
         is_Some (IngredientSearch.error s')
     end).
Proof.
  split.
  - intros Hblank. unfold IngredientSearch.handleSearch, mbind, Eff_bind, bind,
      gets, id. cbn beta iota.
    by rewrite (bool_decide_eq_true_2 _ Hblank).
  - intros Hquery. rewrite handleSearch_run by done.
    eexists. exists (searchParamsOf s). split; [done|]. cbn zeta.
    assert (IngredientSearch.data_types (searchParamsOf s) = None
            ↔ IngredientSearch.selectedTypes s = []) as Htypes.
    { unfold searchParamsOf. simpl.
      by destruct (IngredientSearch.selectedTypes s). }
    destruct (server (searchParamsOf s));
      cbn [IngredientSearch.query IngredientSearch.results
           IngredientSearch.loading IngredientSearch.error
           IngredientSearch.selectedTypes IngredientSearch.searches];
      (split; [done|]); (split; [done|]); (split; [exact Htypes|]);
      (split; [done|]); (split; [done|]); (split; [done|]);
      (split; [done|]); first [done | by eexists].
Qed.

Lemma handleSearch_outcome_cases :
  IngredientSearch.handleSearch searchDown
    (IngredientSearch.mkState "   " ["stale"%string] false None [] [])
  = (Normal (),
     IngredientSearch.mkState "   " ["stale"%string] false None [] []) ∧
  ∃ s', IngredientSearch.handleSearch searchDown typedSearch = (Normal (), s')
        ∧ IngredientSearch.results s' = []
        ∧ IngredientSearch.loading s' = false.
Proof.
  split.
  - by apply (proj1 (handleSearch_outcome searchDown
        (IngredientSearch.mkState "   " ["stale"%string] false None [] []))).
  - destruct (proj2 (handleSearch_outcome searchDown typedSearch))
      as (s' & params & Hrun & _ & _ & _ & Hload & _ & _ & Hres);
      [discriminate|].
    exists s'. split; [exact Hrun|]. split; [|exact Hload].
    by destruct Hres as [-> _].
Defined.

(** The failed search, run: the stale results and the old error are gone
    and the default message is shown. *)
Lemma handleSearch_failure_run :
  IngredientSearch.handleSearch searchDown typedSearch
  = (Normal (),
     IngredientSearch.mkState "oat flour" [] false
       (Some "USDA search failed"%string) []
       [IngredientSearch.mkSearchParams "oat flour" None (Some "25"%string)]).
Proof. reflexivity. Qed.

(** * LabelPreview: download names *)

Lemma sanitize_safe name :
  forallb isSafe (list_ascii_of_string (sanitize name)) = true.
Proof.
  induction name as [|c name IH]; [done|]. simpl.
  destruct (isAlnum c) eqn:Hc; simpl.
  - rewrite IH, andb_true_r. unfold isSafe. by rewrite Hc.
  - destruct (isContinuation c); [done|].
    destruct (isAstralLead c); simpl; by rewrite IH.
Qed.

Lemma forallb_append (f : ascii → bool) a b :
  forallb f (list_ascii_of_string (a +:+ b))
  = forallb f (list_ascii_of_string a) && forallb f (list_ascii_of_string b).
Proof.
  induction a as [|c a IH]; simpl; [done|]. by rewrite IH, andb_assoc.
Qed.

Lemma append_assoc_string (a b c : string) :
  ((a +:+ b) +:+ c = a +:+ (b +:+ c))%string.
Proof.
  induction a as [|x a IH]; [done|].
  change (String x ((a +:+ b) +:+ c) = String x (a +:+ b +:+ c)).
  by f_equal.
Qed.

Lemma startsWith_app p rest : startsWith (p +:+ rest) p = true.
Proof.
  unfold startsWith. induction p as [|c p IH]; [by destruct rest|].
  change (String c p +:+ rest) with (String c (p +:+ rest)). simpl.
  by destruct (ascii_dec c c).
Qed.

(** The replacement writes letters, digits and hyphens only. *)
Lemma sanitize_chars name :
  forallb (λ c, isAlnum c || bool_decide (c = "-"%char))
    (list_ascii_of_string (sanitize name)) = true.
Proof.
  induction name as [|c name IH]; [done|]. simpl.
  destruct (isAlnum c) eqn:Hc; simpl.
  - by rewrite Hc, IH.
  - destruct (isContinuation c); [done|].
    destruct (isAstralLead c); simpl; by rewrite IH.
Qed.

(** It keeps the letters and digits, in their order. *)
Lemma sanitize_keeps_alnum name :
  List.filter isAlnum (list_ascii_of_string (sanitize name))
  = List.filter isAlnum (list_ascii_of_string name).
Proof.
  induction name as [|c name IH]; [done|]. simpl.
  destruct (isAlnum c) eqn:Hc; simpl.
  - by rewrite Hc, IH.
  - destruct (isContinuation c); [done|].
    by destruct (isAstralLead c); simpl.
Qed.

(** On ASCII text it replaces character by character. *)
Lemma sanitize_ascii name :
  isAsciiString name = true →
  list_ascii_of_string (sanitize name)
  = hyphenate <$> list_ascii_of_string name.
Proof.
  unfold isAsciiString.
  induction name as [|c name IH]; [done|].
  cbn [list_ascii_of_string sanitize forallb].
  intros [Hc Hname]%andb_true_iff. apply Nat.ltb_lt in Hc.
  rewrite fmap_cons. unfold hyphenate at 1.
  destruct (isAlnum c); cbn [list_ascii_of_string]; [by rewrite IH|].
  unfold isContinuation, isAstralLead.
  rewrite (proj2 (Nat.leb_gt 128 _)) by lia.
  rewrite (proj2 (Nat.leb_gt 240 _)) by lia.
  cbn [andb list_ascii_of_string]. by rewrite IH.
Qed.

(** X27.  The name offered for a download is [nutrition-label.<extension>]
    when there is no product name ([null] or empty) and
    [nutrition-label-<s>.<extension>] otherwise, where [s] is the product
    name after the replacement: [s] consists of ASCII letters, digits and
    hyphens, keeps the letters and digits of the product name in their
    order, and for a product name within ASCII is that name with each other
    character replaced by one hyphen, in place.  With an extension that
    itself consists of letters, digits, hyphens and dots (as [png] and
    [pdf] do) so does the whole name, whatever the product is called. *)
Theorem downloadName_safe productName extension :
  downloadName None extension = ("nutrition-label." +:+ extension)%string ∧
  downloadName (Some ""%string) extension
  = ("nutrition-label." +:+ extension)%string ∧
  (∀ name, name ≠ ""%string →
     downloadName (Some name) extension
     = ("nutrition-label-" +:+ sanitize name +:+ "." +:+ extension)%string ∧
     forallb (λ c, isAlnum c || bool_decide (c = "-"%char))
       (list_ascii_of_string (sanitize name)) = true ∧
     List.filter isAlnum (list_ascii_of_string (sanitize name))
     = List.filter isAlnum (list_ascii_of_string name) ∧
     (isAsciiString name = true →
      list_ascii_of_string (sanitize name)
      = hyphenate <$> list_ascii_of_string name)) ∧
  (forallb isSafe (list_ascii_of_string extension) = true →
   forallb isSafe (list_ascii_of_string (downloadName productName extension))
   = true).
Proof.
  split; [done|]. split; [done|]. split.
  - intros name Hname. split; [|split; [|split]].
    + unfold downloadName. rewrite bool_decide_eq_false_2 by done.
      rewrite <- !append_assoc_string. done.
    + apply sanitize_chars.
    + apply sanitize_keeps_alnum.
    + apply sanitize_ascii.
  - intros Hext. unfold downloadName.
    rewrite !forallb_append, Hext, andb_true_r.
    destruct productName as [name|]; [|done].
    case_bool_decide; [done|].
    by rewrite forallb_append, sanitize_safe.
Qed.

Lemma downloadName_safe_cases :
  downloadName (Some "Mum's Granola/v2 (30 g)"%string) "png"
  = "nutrition-label-Mum-s-Granola-v2--30-g-.png"%string ∧
  list_ascii_of_string (sanitize "Mum's Granola/v2 (30 g)")
  = list_ascii_of_string "Mum-s-Granola-v2--30-g-" ∧
  forallb isSafe
    (list_ascii_of_string
       (downloadName (Some "../../etc/passwd"%string) "pdf")) = true.
Proof.
  destruct (downloadName_safe (Some "../../etc/passwd"%string) "png")
    as (_ & _ & Hname & _).
  destruct (Hname "Mum's Granola/v2 (30 g)"%string)
    as (Heq & _ & _ & Hascii); [discriminate|].
  split; [exact Heq|]. split.
  - rewrite Hascii; reflexivity.
  - apply (downloadName_safe (Some "../../etc/passwd"%string) "pdf").
    reflexivity.
Defined.

(** Outside ASCII a character gives one hyphen for each of its code units:
    one for the letter pi, two for an emoji. *)
Lemma downloadName_unicode :
  downloadName (Some piR2) "png" = "nutrition-label--r2.png"%string ∧
  downloadName (Some breadMix) "pdf" = "nutrition-label----mix.pdf"%string.
Proof. split; reflexivity. Qed.

(** * RecipeReview: recalculation *)

Lemma handleRecalculate_run server s :
  RecipeReview.handleRecalculate server s =
    ( Normal (),
      let after result messages :=
        RecipeReview.mkState result (RecipeReview.yieldWeight s) false
          (RecipeReview.recalculations s ++ [RecipeReview.yieldWeight s])
          (RecipeReview.reported s ++ messages) in
      match server (RecipeReview.yieldWeight s) with
      | RecipeReview.RecalcSuccess result => after (Some result) []
      | RecipeReview.RecalcRejected message =>
          after (RecipeReview.nutritionResult s)
            [or_string (Some message) "Failed to recalculate nutrition"]
      | RecipeReview.RecalcFailure error =>
          after (RecipeReview.nutritionResult s)
            [or_string (Some (or_string error "Recipe calculation failed"))
               "Failed to recalculate nutrition"]
      end ).
Proof.
  unfold RecipeReview.handleRecalculate, try_finally, try_catch,
    RecipeReview.calculateRecipeNutrition, mbind, Eff_bind, bind, gets, id,
    RecipeReview.setIsRecalculating, RecipeReview.setNutritionResult,
    RecipeReview.onError, modify, throw, ret.
  cbn beta iota zeta.
  cbn [RecipeReview.nutritionResult RecipeReview.yieldWeight
       RecipeReview.isRecalculating RecipeReview.recalculations
       RecipeReview.reported].
  destruct (server (RecipeReview.yieldWeight s));
    cbn beta iota zeta;
    cbn [RecipeReview.nutritionResult RecipeReview.yieldWeight
         RecipeReview.isRecalculating RecipeReview.recalculations
         RecipeReview.reported];
    by rewrite ?app_nil_r.
Qed.

(** X28.  [handleRecalculate] posts the yield weight that is in the state as
    it is, without a check of its own, never throws and ends with the
    recalculating flag off and the yield weight unchanged.  A result that
    comes back replaces the one shown; a failure leaves the one shown in
    place and reports one non-empty message through [onError]. *)
Theorem handleRecalculate_outcome server s :
  ∃ s',
    RecipeReview.handleRecalculate server s = (Normal (), s') ∧
    RecipeReview.recalculations s'
    = RecipeReview.recalculations s ++ [RecipeReview.yieldWeight s] ∧
    RecipeReview.isRecalculating s' = false ∧
    RecipeReview.yieldWeight s' = RecipeReview.yieldWeight s ∧
    match server (RecipeReview.yieldWeight s) with
    | RecipeReview.RecalcSuccess result =>
        RecipeReview.nutritionResult s' = Some result ∧
        RecipeReview.reported s' = RecipeReview.reported s
    | _ =>
        RecipeReview.nutritionResult s' = RecipeReview.nutritionResult s ∧
        ∃ message, message ≠ ""%string ∧
          RecipeReview.reported s' = RecipeReview.reported s ++ [message]
    end.
Proof.
  rewrite handleRecalculate_run. eexists. split; [done|]. cbn zeta.
  destruct (server (RecipeReview.yieldWeight s));
    cbn [RecipeReview.nutritionResult RecipeReview.yieldWeight
         RecipeReview.isRecalculating RecipeReview.recalculations
         RecipeReview.reported];
    (split; [done|]); (split; [done|]); (split; [done|]); (split; [done|]);
    first [ by rewrite app_nil_r
          | eexists; split; [|done]; by apply or_string_nonempty ].
Qed.

Lemma handleRecalculate_outcome_cases :
  ∃ s',
    (RecipeReview.handleYieldWeightChange None;;
     RecipeReview.handleRecalculate refusingServer) reviewOfStew
    = (Normal (), s') ∧
    RecipeReview.recalculations s' = [0] ∧
    RecipeReview.nutritionResult s'
    = Some (mkNutritionResult (Some #250) (Some #300)) ∧
    RecipeReview.reported s' = ["yield_weight_g must be positive"%string].
Proof.
  destruct (handleRecalculate_outcome refusingServer
              (RecipeReview.mkState
                 (Some (mkNutritionResult (Some #250) (Some #300)))
                 0 false [] []))
    as (s' & Hrun & Hposted & _ & _ & Hkept & message & _ & Hmsg).
  exists s'. split; [exact Hrun|]. split; [exact Hposted|].
  split; [exact Hkept|].
  rewrite Hmsg. apply (f_equal snd) in Hrun. simpl in Hrun. subst s'.
  simpl in Hmsg. by injection Hmsg as <-.
Defined.

(** * RecipeBuilder: conversions that overlap *)

(** The two halves of [convertIngredient] and of the handlers, run one
    after the other with the reply of the backend, are the sequential
    handlers. *)
Lemma convertIngredient_split backend ingredient s :
  ing_unit ingredient ≠ "g"%string →
  convertIngredient backend ingredient s
  = (requestConversion ingredient;;
     settleConversion (backend (requestOf ingredient)) ingredient) s.
Proof.
  intros Hunit. unfold convertIngredient. rewrite decide_False by done.
  unfold requestConversion, settleConversion, convertIngredientToGrams,
    requestOf, mbind, Eff_bind, bind, try_finally, try_catch,
    setConvertingIds, post, modify, throw, ret.
  simpl. by destruct (backend _).
Qed.

Lemma handleQuantityChange_split backend id parsed s :
  handleQuantityChange backend id parsed s
  = (pending ← startQuantityChange id parsed;
     match pending with
     | Some asked => resumeChange id asked (backend (requestOf asked))
     | None => ret ()
     end) s.
Proof.
  unfold handleQuantityChange, startQuantityChange.
  unfold mbind, Eff_bind, bind, gets, setIngredients, modify.
  cbn beta iota zeta. cbn [ingredients].
  destruct (findById id (ingredients s)) as [ingredient|]; [|done].
  destruct (decide (ing_unit ingredient ≠ "g"%string)) as [Hunit|]; [|done].
  rewrite convertIngredient_split by done.
  unfold resumeChange, requestConversion, settleConversion, requestOf,
    mbind, Eff_bind, bind, try_finally, try_catch, setConvertingIds, post,
    setIngredients, modify, throw, ret.
  simpl. by destruct (backend _).
Qed.

Lemma handleUnitChange_split backend id unit s :
  handleUnitChange backend id unit s
  = (pending ← startUnitChange id unit;
     match pending with
     | Some asked => resumeChange id asked (backend (requestOf asked))
     | None => ret ()
     end) s.
Proof.
  unfold handleUnitChange, startUnitChange.
  unfold mbind, Eff_bind, bind, gets, setIngredients, modify.
  cbn beta iota zeta. cbn [ingredients].
  destruct (findById id (ingredients s)) as [ingredient|]; [|done].
  destruct (decide (unit ≠ "g"%string)) as [Hunit|]; [|done].
  rewrite convertIngredient_split by done.
  unfold resumeChange, requestConversion, settleConversion, requestOf,
    mbind, Eff_bind, bind, try_finally, try_catch, setConvertingIds, post,
    setIngredients, modify, throw, ret.
  simpl. by destruct (backend _).
Qed.

(** While the two requests are unanswered the row waits with
    [weight_g = null] and the memo holds the aggregation back. *)
Lemma twoKeystrokes_pending :
  startQuantityChange 5 (Some #2) twoKeystrokes
  = (Normal (Some askedFirst), afterFirstKeystroke) ∧
  startQuantityChange 5 (Some #3) afterFirstKeystroke
  = (Normal (Some askedSecond), afterSecondKeystroke) ∧
  combinedNutrition (ingredients afterFirstKeystroke) = None ∧
  combinedNutrition (ingredients afterSecondKeystroke) = None ∧
  isConverting afterSecondKeystroke = true ∧
  confirmDisabled afterSecondKeystroke = true ∧
  sent afterSecondKeystroke = [requestOf askedFirst; requestOf askedSecond].
Proof. repeat split. Qed.

(** A reply that is not the latest.  Two quantities are typed into a row in
    cups, 2 and then 3, and the reply to the first request arrives while
    the second is unanswered: the reply is stored by id in the row, which
    now reads 3 cups and weighs the 250 g of 2 cups, and the [finally] of
    the first call removes the id from [convertingIds], although the second
    call has put it there as well.  From then on, with the second request
    still unanswered, no row is shown as converting, the memo runs
    [combineIngredients] on the rows and returns a profile, the confirm
    button is enabled and [handleConfirm] hands that profile on.  The reply
    to the second request changes the weight to 375 g afterwards. *)
Lemma stale_answer_aggregates :
  startQuantityChange 5 (Some #2) twoKeystrokes
  = (Normal (Some askedFirst), afterFirstKeystroke) ∧
  startQuantityChange 5 (Some #3) afterFirstKeystroke
  = (Normal (Some askedSecond), afterSecondKeystroke) ∧
  resumeChange 5 askedFirst (densityTable (requestOf askedFirst))
    afterSecondKeystroke
  = (Normal (), afterFirstReply) ∧
  resumeChange 5 askedSecond (densityTable (requestOf askedSecond))
    afterFirstReply
  = (Normal (), afterSecondReply) ∧
  sent afterFirstReply = [requestOf askedFirst; requestOf askedSecond] ∧
  ingredients afterFirstReply
  = [ingredientA;
     mkIngredient 5 "milk" #3 "cup" (Some (#2 * #125)) (Some medium)
       (Some "approximate density"%string) (<["calories" := #61]> ∅)] ∧
  isConverting afterFirstReply = false ∧
  combinedNutrition (ingredients afterFirstReply)
  = combineIngredients (ingredients afterFirstReply) ∧
  combinedNutrition (ingredients afterFirstReply) ≠ None ∧
  confirmDisabled afterFirstReply = false ∧
  is_Some (handleConfirm "" (ingredients afterFirstReply)) ∧
  ingredients afterSecondReply
  = [ingredientA;
     mkIngredient 5 "milk" #3 "cup" (Some (#3 * #125)) (Some medium)
       (Some "approximate density"%string) (<["calories" := #61]> ∅)].
Proof.
  split; [reflexivity|]. split; [reflexivity|]. split; [reflexivity|].
  split; [reflexivity|]. split; [reflexivity|]. split; [reflexivity|].
  split; [reflexivity|].
  assert (ingredients afterFirstReply
          = [ingredientA;
             mkIngredient 5 "milk" #3 "cup" (Some (#2 * #125)) (Some medium)
               (Some "approximate density"%string)
               (<["calories" := #61]> ∅)]) as Hrows by reflexivity.
  assert (combinedNutrition (ingredients afterFirstReply) ≠ None) as Hsome.
  { rewrite Hrows, combinedNutrition_converted by done.
    destruct (combineIngredients_Some
                [ingredientA;
                 mkIngredient 5 "milk" #3 "cup" (Some (#2 * #125))
                   (Some medium) (Some "approximate density"%string)
                   (<["calories" := #61]> ∅)])
      as (m & -> & _); [intros H; by apply (f_equal this) in H|done]. }
  split; [rewrite Hrows; by apply combinedNutrition_converted|].
  split; [exact Hsome|].
  unfold confirmDisabled, handleConfirm.
  destruct (combinedNutrition (ingredients afterFirstReply)) as [combined|];
    [|done].
  split; [reflexivity|]. split; [by eexists|reflexivity].
Qed.


(** The reply that comes after the change to grams replaces the weight of
    the row, whose unit stays ['g']. *)
Lemma late_reply_after_grams :
  resumeChange 2 askedCup (densityTable (requestOf askedCup)) afterUnitGrams
  = (Normal (), afterLateReply) ∧
  (weight_g <$> ingredients afterLateReply)
  = [Some #200; Some (#100 * #125)] ∧
  (ing_unit <$> ingredients afterLateReply) = ["g"; "g"]%string ∧
  isConverting afterLateReply = false.
Proof. repeat split. Qed.





(** * The aggregator on binary64 *)

(** Read off two floats that are equal: they compare equal. *)
Lemma float_eqb_of_eq (x y : float) :
  x = y → PrimFloat.eqb x x = PrimFloat.eqb x y.
Proof. by intros ->. Qed.

(** C10 as stated fails.  On the doubles the code computes with, scaling
    the weights does change the result: 2 g of a food with 100 kcal and 100 g of one with 50 kcal
    give 50.98039215686274 kcal per 100 g, and 50.98039215686275 once both
    weights are multiplied by 3. *)
#[warnings="-inexact-float"] Lemma combineIngredients_scaling_rounds :
  Double.calories
    (Double.combineIngredients [Double.row 2 100; Double.row 100 50])
  = Some 50.98039215686274%float ∧
  Double.calories
    (Double.combineIngredients
       (Double.scaleWeight 3 <$> [Double.row 2 100; Double.row 100 50]))
  = Some 50.98039215686275%float ∧
  Double.combineIngredients
    (Double.scaleWeight 3 <$> [Double.row 2 100; Double.row 100 50])
  ≠ Double.combineIngredients [Double.row 2 100; Double.row 100 50].
Proof.
  split; [reflexivity|]. split; [reflexivity|].
  intros Heq.
  apply (f_equal (λ result, default 0%float (Double.calories result))) in Heq.
  apply float_eqb_of_eq in Heq. vm_compute in Heq. discriminate Heq.
Qed.

(** The identities and bounds of the exact sums hold on the doubles up to
    rounding only.  One row of 1 g with 7 kcal comes back with more than
    7; *)
#[warnings="-inexact-float"] Lemma double_single_rounds :
  Double.calories (Double.combineIngredients [Double.row 1 7])
  = Some 7.000000000000001%float.
Proof. reflexivity. Qed.

(** rows that all carry 0.1 combine to less, rows that all carry 3.3 to
    more; *)
#[warnings="-inexact-float"] Lemma double_between_rounds :
  Double.calories
    (Double.combineIngredients [Double.row 1 0.1; Double.row 30 0.1])
  = Some 0.09999999999999999%float ∧
  Double.calories
    (Double.combineIngredients [Double.row 1 3.3; Double.row 1 3.3])
  = Some 3.3000000000000003%float.
Proof. split; reflexivity. Qed.

(** two rows of the same food and one row of their joint weight differ in
    the last digits; *)
#[warnings="-inexact-float"] Lemma double_merge_rounds :
  Double.calories
    (Double.combineIngredients
       [Double.row 1 389; Double.row 10 389; Double.row 100 52])
  = Some 85.3963963963964%float ∧
  Double.calories
    (Double.combineIngredients [Double.row 11 389; Double.row 100 52])
  = Some 85.39639639639638%float.
Proof. split; reflexivity. Qed.

(** and so do two orders of the same rows. *)
#[warnings="-inexact-float"] Lemma double_order_rounds :
  Double.calories
    (Double.combineIngredients
       [Double.row 200 100; Double.row 100 50; Double.row 1 8])
  = Some 83.08305647840533%float ∧
  Double.calories
    (Double.combineIngredients
       [Double.row 100 50; Double.row 1 8; Double.row 200 100])
  = Some 83.08305647840531%float.
Proof. split; reflexivity. Qed.

(** The zero total is found on the doubles as well, and a [null] weight
    counts as 0 there too. *)
Lemma double_null :
  Double.combineIngredients [] = None ∧
  Double.combineIngredients [Double.row 100 50; Double.row (-100) 80] = None ∧
  Double.combineIngredients
    [Double.mkIngredient None (<["calories"%string := 50%float]> ∅)] = None.
Proof. repeat split. Qed.
